(** * NeonPlug: the airport frequency table builder (airportdownload.py)

    A shallow embedding of the script that joins the airport table with the
    frequency table, keeps the frequencies of the civil VHF band, removes
    duplicates per airport and writes the compact JSON list.

    Python values are modelled as follows.
    - [float] is IEEE binary64, through the executable specification
      [spec_float] of the Standard Library (precision 53, emax 1024).
    - [str] is [string]; a character is a code point below 256.
    - A row produced by [csv.DictReader] is a finite map from column names
      to [option string]: [None] is the value [DictReader] stores for the
      missing trailing fields of a short line.
    - The insertion-ordered [dict] of airports and the one used for removing
      duplicates are association lists whose keys are unique and keep the
      position of their first insertion.
    - An exception that leaves the script is a value of [exn]. *)

From Stdlib Require Import ZArith Bool Ascii String SpecFloat Lia.
From stdpp Require Import base option list gmap strings sorting.

Open Scope Z_scope.

(** ** Floating point numbers *)

Module Float.

Definition prec : Z := 53.
Definition emax : Z := 1024.

Definition float : Type := spec_float.

Definition valid (x : float) : bool := valid_binary prec emax x.

Definition mul : float -> float -> float := SFmul prec emax.
Definition div : float -> float -> float := SFdiv prec emax.
Definition ltb : float -> float -> bool := SFltb.
Definition leb : float -> float -> bool := SFleb.

(** The integer nearest to [p / q] for [0 <= p] and [0 < q], a tie going
    to the even neighbour. *)
Definition round_half_even (p q : Z) : Z :=
  let n := p / q in
  match 2 * (p mod q) ?= q with
  | Lt => n
  | Eq => if Z.even n then n else n + 1
  | Gt => n + 1
  end.

(** The binary64 number nearest to the rational [p / q] (ties to even),
    with the sign [neg]; [0 < p] and [0 < q]. *)
Definition nearest (neg : bool) (p q : Z) : float :=
  let '(mz, ez, lz) := SFdiv_core_binary prec emax p 0 q 0 in
  binary_round_aux prec emax neg mz ez lz.

(** Conversion of a Python [int] in an arithmetic operation with a float. *)
Definition of_Z (n : Z) : float :=
  match n with
  | Z0 => S754_zero false
  | Zpos p => nearest false (Zpos p) 1
  | Zneg p => nearest true (Zpos p) 1
  end.

(** The value of a decimal literal [digits * 10^(-scale)]. *)
Definition of_decimal (neg : bool) (digits : Z) (scale : Z) : float :=
  match digits with
  | Zpos p => nearest neg (Zpos p) (10 ^ scale)
  | _ => S754_zero neg
  end.

(** [round(x)] with one argument: the nearest integer, ties to even, as a
    Python [int]. It raises on infinities and NaN ([None]). *)
Definition py_round (x : float) : option Z :=
  match x with
  | S754_zero _ => Some 0
  | S754_finite s m e =>
      let n := match e with
               | Zneg d => round_half_even (Zpos m) (2 ^ Zpos d)
               | _ => Zpos m * 2 ^ e
               end in
      Some (if s then - n else n)
  | _ => None
  end.

(** [round(x, ndigits)] for [0 <= ndigits]: the float nearest to the
    decimal number that is nearest to [x] with [ndigits] digits after the
    point. Zeros, infinities and NaN are returned as they are. *)
Definition py_round_digits (x : float) (ndigits : Z) : float :=
  match x with
  | S754_finite s m e =>
      let n := match e with
               | Zneg d => round_half_even (Zpos m * 10 ^ ndigits) (2 ^ Zpos d)
               | _ => Zpos m * 2 ^ e * 10 ^ ndigits
               end in
      match n with
      | Zpos p => nearest s (Zpos p) (10 ^ ndigits)
      | _ => S754_zero s
      end
  | _ => x
  end.

End Float.

Import Float.

(** ** Strings *)

(** Whitespace for [str.strip()], among the code points below 256. *)
Definition is_space (a : ascii) : bool :=
  let n := N_of_ascii a in
  ((9 <=? n) && (n <=? 13) || (28 <=? n) && (n <=? 32)
   || (n =? 133) || (n =? 160))%N.

Definition nonempty (s : string) : bool :=
  match s with
  | EmptyString => false
  | String _ _ => true
  end.

Fixpoint lstrip (s : string) : string :=
  match s with
  | EmptyString => EmptyString
  | String a s' => if is_space a then lstrip s' else s
  end.

Fixpoint rstrip (s : string) : string :=
  match s with
  | EmptyString => EmptyString
  | String a s' =>
      let r := rstrip s' in
      if is_space a && negb (nonempty r) then EmptyString else String a r
  end.

Definition strip (s : string) : string := rstrip (lstrip s).

(** ** Exceptions *)

Inductive exn : Set := ValueError | AttributeError | TypeError | NameError.

Inductive result (A : Type) : Type :=
  | Ok (a : A)
  | Raise (e : exn).
Arguments Ok {A} a.
Arguments Raise {A} e.

Definition bind {A B} (r : result A) (k : A -> result B) : result B :=
  match r with
  | Ok a => k a
  | Raise e => Raise e
  end.

(** A [for] loop over [xs] whose body may raise. *)
Fixpoint for_each {S X} (body : S -> X -> result S) (xs : list X) (s : S)
  : result S :=
  match xs with
  | [] => Ok s
  | x :: xs' => bind (body s x) (for_each body xs')
  end.

(** ** Insertion-ordered dictionaries *)

Section pydict.
Context {K V : Type} `{EqDecision K}.

Fixpoint dict_get (d : list (K * V)) (k : K) : option V :=
  match d with
  | [] => None
  | (k', v) :: d' => if decide (k = k') then Some v else dict_get d' k
  end.

(** [d[k] = v]: an existing key keeps its position. *)
Fixpoint dict_set (d : list (K * V)) (k : K) (v : V) : list (K * V) :=
  match d with
  | [] => [(k, v)]
  | (k', v') :: d' =>
      if decide (k = k') then (k, v) :: d' else (k', v') :: dict_set d' k v
  end.

Definition dict_keys (d : list (K * V)) : list K := fst <$> d.
Definition dict_values (d : list (K * V)) : list V := snd <$> d.
End pydict.

(** [sorted(xs, key=key)]: a stable sort, here by insertion. *)
Section sorted.
Context {A : Type} (key : A -> Z).

Fixpoint insert_sorted (x : A) (xs : list A) : list A :=
  match xs with
  | [] => [x]
  | y :: xs' =>
      if key x <=? key y then x :: y :: xs' else y :: insert_sorted x xs'
  end.

Definition sorted (xs : list A) : list A := foldr insert_sorted [] xs.
End sorted.


(** ** Constants of the script *)

(** [VHF_MIN = 108.0] and [VHF_MAX = 137.0]. *)
Definition VHF_MIN : float := Eval vm_compute in of_decimal false 1080 1.
Definition VHF_MAX : float := Eval vm_compute in of_decimal false 1370 1.

(** The integer operands [500] and [1000] of the float operations. *)
Definition f500 : float := Eval vm_compute in of_Z 500.
Definition f1000 : float := Eval vm_compute in of_Z 1000.

Definition TYPE_MAP : list (string * string) :=
  [ ("CTAF", "C"); ("UNICOM", "U"); ("TOWER", "T"); ("GROUND", "G");
    ("APP", "A"); ("ATIS", "I"); ("DEP", "D"); ("MISC", "M");
    ("ASOW", "S"); ("FSS", "F"); ("RADIO", "R"); ("CLD", "L");
    ("INFO", "N"); ("AFIS", "Z"); ("A/G", "Y"); ("OPS", "O");
    ("RADAR", "X"); ("APRON", "P"); ("ATF", "H"); ("RCO", "Q");
    ("TRAFFIC", "V"); ("TMA", "W"); ("ASOS", "B"); ("PAL", "J");
    ("AAS", "K"); ("DIR", "E"); ("GCA", "Y"); ("A/A", "AA");
    ("FCC", "FC"); ("ACP", "AC"); ("TIBA", "TB"); ("A/D", "AD");
    ("ACC", "CC"); ("ARTC", "RT") ]%string.

(** ** Frequency validation (the body of the [try] of the frequency loop) *)

(** [if f > 500: f = f / 1000]. *)
Definition rescale (v : float) : float :=
  if ltb f500 v then div v f1000 else v.

(** [VHF_MIN <= f <= VHF_MAX]. *)
Definition in_band (m : float) : bool := leb VHF_MIN m && leb m VHF_MAX.

(** From the parsed value to [freq_khz], or to no entry. *)
Definition validate (v : float) : option Z :=
  let m := rescale v in
  if in_band m then py_round (mul m f1000) else None.

(** ** Frequency entries *)

(** What the frequency loop appends to [airports[icao]["f"]]: the number
    [freq_khz], or the dictionary [{"f": freq_khz, "t": freq_type}]. *)
Inductive freq_entry : Type :=
  | Num (khz : Z)
  | Dict (khz : Z) (t : string).

(** What the compaction leaves in [airport["f"]]: the number, or the
    two-element list [[freq_khz, type_code]]. *)
Inductive compact_entry : Type :=
  | CNum (khz : Z)
  | CPair (khz : Z) (code : string).

#[global] Instance freq_entry_eq_dec : EqDecision freq_entry.
Proof. solve_decision. Defined.
#[global] Instance compact_entry_eq_dec : EqDecision compact_entry.
Proof. solve_decision. Defined.

(** [isinstance(freq, dict)]. *)
Definition is_dict (e : freq_entry) : bool :=
  match e with
  | Dict _ _ => true
  | Num _ => false
  end.

(** The key of both the duplicate removal and the sort:
    [x["f"] if isinstance(x, dict) else x]. *)
Definition freq_key (e : freq_entry) : Z :=
  match e with
  | Num k => k
  | Dict k _ => k
  end.

(** [freq_entry] as built from the validated value and the stripped type. *)
Definition make_entry (freq_khz : Z) (freq_type : string) : freq_entry :=
  if nonempty freq_type then Dict freq_khz freq_type else Num freq_khz.

(** ** Removal of duplicates and compaction, for one airport *)

(** One turn of the loop that fills [freq_dict]. *)
Definition dedup_step (freq_dict : list (Z * freq_entry)) (freq : freq_entry)
  : list (Z * freq_entry) :=
  match freq with
  | Dict k _ =>
      match dict_get freq_dict k with
      | None => dict_set freq_dict k freq
      | Some old => if is_dict old then freq_dict else dict_set freq_dict k freq
      end
  | Num k =>
      match dict_get freq_dict k with
      | None => dict_set freq_dict k freq
      | Some _ => freq_dict
      end
  end.

Definition build_freq_dict (fs : list freq_entry) : list (Z * freq_entry) :=
  fold_left dedup_step fs [].

(** [freq_list = sorted(freq_dict.values(), key=...)]. *)
Definition freq_list (fs : list freq_entry) : list freq_entry :=
  sorted freq_key (dict_values (build_freq_dict fs)).

(** [TYPE_MAP.get(freq_type, freq_type)]. *)
Definition type_map_get (freq_type : string) : string :=
  default freq_type (dict_get TYPE_MAP freq_type).

(** The type of a compacted entry: [freq.get("t", "")], mapped when it is
    not empty. *)
Definition map_type (freq_type : string) : string :=
  if nonempty freq_type then type_map_get freq_type else freq_type.

Definition compact (freq : freq_entry) : compact_entry :=
  match freq with
  | Dict k t => CPair k (map_type t)
  | Num k => CNum k
  end.

(** The whole body of the loop over [airports.values()], as a function from
    the old [airport["f"]] to the new one. *)
Definition deduplicate (fs : list freq_entry) : list compact_entry :=
  compact <$> freq_list fs.

(** The compaction binds the name [TYPE_MAP] when it meets a dictionary
    whose type is not empty. *)
Definition binds_type_map (fs : list freq_entry) : bool :=
  existsb (fun e => match e with Dict _ t => nonempty t | Num _ => false end)
          (freq_list fs).

(** *** The same loop on arbitrary contents of [airport["f"]] *)

(** A value that may stand in [airport["f"]]: a number, a dictionary with
    the keys ["f"] and ["t"], or a two-element list. *)
Inductive pyval : Type :=
  | PyInt (n : Z)
  | PyDict (k : Z) (t : string)
  | PyList (k : Z) (t : string).

(** A list is not a [dict]: the [else] branch takes the list itself for
    [freq_key], and the test [freq_key not in freq_dict] raises [TypeError]
    (unhashable type). *)
Definition py_dedup_step (freq_dict : list (Z * freq_entry)) (freq : pyval)
  : result (list (Z * freq_entry)) :=
  match freq with
  | PyInt n => Ok (dedup_step freq_dict (Num n))
  | PyDict k t => Ok (dedup_step freq_dict (Dict k t))
  | PyList _ _ => Raise TypeError
  end.

Definition py_of_compact (e : compact_entry) : pyval :=
  match e with
  | CNum k => PyInt k
  | CPair k code => PyList k code
  end.

Definition py_of_entry (e : freq_entry) : pyval :=
  match e with
  | Num k => PyInt k
  | Dict k t => PyDict k t
  end.

Definition py_deduplicate (fs : list pyval) : result (list pyval) :=
  bind (for_each py_dedup_step fs [])
       (fun freq_dict =>
          Ok ((fun e => py_of_compact (compact e))
                <$> sorted freq_key (dict_values freq_dict))).

(** ** Airports and the two loops over the rows *)

(** An airport record [{"c": ..., "l": [lat, lon], "f": [...]}]; the type
    of the elements of ["f"] changes when the record is compacted. *)
Record airport (F : Type) : Type := Airport {
  a_c : string;
  a_l : float * float;
  a_f : list F
}.
Arguments Airport {F} _ _ _.
Arguments a_c {F} _.
Arguments a_l {F} _.
Arguments a_f {F} _.

(** How the script ends: an exception before anything is written, or the
    list written to the JSON file together with the fate of the last
    [print], which reads [len(TYPE_MAP)]. *)
Inductive outcome : Type :=
  | Aborted (e : exn)
  | Wrote (airport_list : list (airport compact_entry)) (report : result nat).

(** [row.get(k)]: [None] for a missing key as for a stored [None]. *)
Definition row_get (row : gmap string (option string)) (k : string)
  : option string :=
  match row !! k with
  | Some v => v
  | None => None
  end.

(** [row.get(k, d)]: the default only replaces a missing key. *)
Definition row_get_default (row : gmap string (option string))
  (k : string) (d : string) : option string :=
  match row !! k with
  | Some v => v
  | None => Some d
  end.

(** [airports[icao]["f"].append(freq_entry)]. *)
Definition append_freq (a : airport freq_entry) (e : freq_entry)
  : airport freq_entry :=
  Airport (a_c a) (a_l a) (a_f a ++ [e]).

(** [airport["f"] = compact_freqs]. *)
Definition finalize (a : airport freq_entry) : airport compact_entry :=
  Airport (a_c a) (a_l a) (deduplicate (a_f a)).

(** Truth value of [a["f"]]. *)
Definition has_freqs {F} (a : airport F) : Prop := a_f a <> [].

#[global] Instance has_freqs_dec {F} (a : airport F) : Decision (has_freqs a).
Proof. unfold has_freqs. destruct (a_f a); [right|left]; congruence. Defined.

Section pipeline.

(** The builtin [float] on a [str]: [None] when it raises [ValueError]. *)
Variable float_of_string : string -> option float.

(** The body of the loop over the airport rows. The test
    [icao and lat and lon] is true for three strings that are not empty. *)
Definition airport_step (airports : list (string * airport freq_entry))
  (row : gmap string (option string)) : list (string * airport freq_entry) :=
  match row_get row "ICAO", row_get row "lat", row_get row "lon" with
  | Some icao, Some lat, Some lon =>
      if nonempty icao && nonempty lat && nonempty lon then
        match float_of_string lat, float_of_string lon with
        | Some la, Some lo =>
            dict_set airports icao
              (Airport icao (py_round_digits la 3, py_round_digits lo 3) [])
        | _, _ => airports
        end
      else airports
  | _, _, _ => airports
  end.

Definition build_airports (airport_rows : list (gmap string (option string)))
  : list (string * airport freq_entry) :=
  fold_left airport_step airport_rows [].

(** The part of the frequency loop below the line that strips the type. *)
Definition attach (airports : list (string * airport freq_entry))
  (icao freq_raw : option string) (freq_type : string)
  : list (string * airport freq_entry) :=
  match icao, freq_raw with
  | Some icao, Some freq_raw =>
      match dict_get airports icao with
      | Some a =>
          if nonempty freq_raw then
            match float_of_string freq_raw with
            | Some v =>
                match validate v with
                | Some freq_khz =>
                    dict_set airports icao
                      (append_freq a (make_entry freq_khz freq_type))
                | None => airports
                end
            | None => airports
            end
          else airports
      | None => airports
      end
  | _, _ => airports
  end.

(** The body of the loop over the frequency rows. [.strip()] on [None]
    raises [AttributeError], outside the [try]. *)
Definition freq_step (airports : list (string * airport freq_entry))
  (row : gmap string (option string))
  : result (list (string * airport freq_entry)) :=
  let icao := row_get row "airport" in
  let freq_raw := row_get row "frequency" in
  match row_get_default row "type" "" with
  | None => Raise AttributeError
  | Some ty => Ok (attach airports icao freq_raw (strip ty))
  end.

(** The script, from the rows of the two readers to its end. *)
Definition run (airport_rows freq_rows : list (gmap string (option string)))
  : outcome :=
  match for_each freq_step freq_rows (build_airports airport_rows) with
  | Raise e => Aborted e
  | Ok airports =>
      let airport_list :=
        filter has_freqs (finalize <$> dict_values airports) in
      Wrote airport_list
            (if existsb (fun a => binds_type_map (a_f a)) (dict_values airports)
             then Ok (length TYPE_MAP)
             else Raise NameError)
  end.

End pipeline.

(** ** The builtin [float] on plain decimal literals

    [float(s)] returns the binary64 number nearest to the decimal number
    that [s] denotes. [float_of_decimal_string] does this for the strings
    made of an optional sign, digits and at most one point; it is used to
    run the script on concrete rows. *)

Definition digit_of (a : ascii) : option Z :=
  let n := N_of_ascii a in
  if ((48 <=? n) && (n <=? 57))%N then Some (Z.of_N n - 48) else None.

(** Reads the longest prefix of digits: its value on top of [acc], the
    number of digits read on top of [count], and the rest. *)
Fixpoint read_digits (s : string) (acc count : Z) : Z * Z * string :=
  match s with
  | EmptyString => (acc, count, s)
  | String a s' =>
      match digit_of a with
      | Some d => read_digits s' (10 * acc + d) (count + 1)
      | None => (acc, count, s)
      end
  end.

Definition read_sign (s : string) : bool * string :=
  match s with
  | String "-" s' => (true, s')
  | String "+" s' => (false, s')
  | _ => (false, s)
  end.

Definition float_of_decimal_string (s : string) : option float :=
  let '(neg, s1) := read_sign s in
  let '(int_part, n_int, s2) := read_digits s1 0 0 in
  let '(digits, n_frac, s3) :=
    match s2 with
    | String "." s2' =>
        let '(v, n, r) := read_digits s2' int_part 0 in (v, n, r)
    | _ => (int_part, 0, s2)
    end in
  if (0 <? n_int + n_frac) && negb (nonempty s3)
  then Some (of_decimal neg digits n_frac)
  else None.

(** ** The components as the specification words them *)

Module Spec.

(** FrequencyEntry: [kilohertz], and [typeCode] where the empty string
    means that there is no usage information. *)
Record FrequencyEntry : Type := {
  kilohertz : Z;
  typeCode : string
}.

(** 4.3 Type Code Mapper: the label is trimmed first. A trimmed label of
    the table gives its code, a trimmed label that the table does not have
    is returned as it is, and the empty label gives the empty string. *)
Definition type_code_mapper (label : string) : string :=
  let trimmed := strip label in
  if nonempty trimmed then
    match dict_get TYPE_MAP trimmed with
    | Some code => code
    | None => trimmed
    end
  else EmptyString.

(** 4.5: a FrequencyEntry is built by 4.2 then 4.3. *)
Definition entry (khz : Z) (label : string) : FrequencyEntry :=
  {| kilohertz := khz; typeCode := type_code_mapper label |}.

Definition typed (e : FrequencyEntry) : bool := nonempty (typeCode e).

(** 4.4 steps 2 and 3: in the group of [khz], the first typed entry in
    input order, otherwise the untyped entry. *)
Definition survivor (es : list FrequencyEntry) (khz : Z) : FrequencyEntry :=
  match List.find (fun e => (kilohertz e =? khz) && typed e) es with
  | Some e => e
  | None => {| kilohertz := khz; typeCode := EmptyString |}
  end.

(** 4.4 steps 1 and 4: one group per [kilohertz] value, ascending. *)
Definition deduplicator (es : list FrequencyEntry) : list FrequencyEntry :=
  survivor es <$> sorted id (remove_dups (kilohertz <$> es)).

(** 4.4 step 5: a bare number, or the pair of the frequency and the code. *)
Definition serialize (e : FrequencyEntry) : compact_entry :=
  if typed e then CPair (kilohertz e) (typeCode e) else CNum (kilohertz e).

Definition observed_entry (o : Z * string) : FrequencyEntry :=
  entry o.1 o.2.

(** The final frequency sequence of one airport from its validated
    observations (kHz value and raw label), in row order. *)
Definition frequencies (obs : list (Z * string)) : list compact_entry :=
  serialize <$> deduplicator (observed_entry <$> obs).

End Spec.

(** ** Notions used to state the properties *)


(** The entry that the frequency loop builds from an observation, the
    validated value in kHz and the raw label. *)
Definition observed_entry (o : Z * string) : freq_entry :=
  make_entry o.1 (strip o.2).

(** An entry that carries a type code which is not empty. *)
Definition has_type (e : freq_entry) : bool :=
  match e with
  | Dict _ t => nonempty t
  | Num _ => false
  end.

(** The entries that the frequency loop builds: a dictionary is only made
    for a type that is not empty. *)
Definition well_typed (fs : list freq_entry) : Prop :=
  Forall (fun e => is_dict e = has_type e) fs.

(** From the raw label of a row to the code in the output: the label is
    stripped in the frequency loop and mapped in the compaction. *)
Definition type_code (label : string) : string := map_type (strip label).

(** The entry that is to survive for the value [k]: the first entry of the
    input with this value and a type, otherwise the untyped entry. *)
Definition survivor (fs : list freq_entry) (k : Z) : freq_entry :=
  match List.find (fun x => (freq_key x =? k) && has_type x) fs with
  | Some e => e
  | None => Num k
  end.

(** The same with the test of the code, [isinstance(freq, dict)]. *)
Definition first_dict (fs : list freq_entry) (k : Z) : freq_entry :=
  match List.find (fun x => (freq_key x =? k) && is_dict x) fs with
  | Some e => e
  | None => Num k
  end.

(** A compacted entry read back as an entry of the frequency loop. *)
Definition reread (e : compact_entry) : freq_entry :=
  match e with
  | CNum k => Num k
  | CPair k code => Dict k code
  end.

(** The records of [airports] with [fs icao] appended to the frequencies
    of the record of [icao]. *)
Definition extend (fs : string -> list freq_entry)
  (airports : list (string * airport freq_entry))
  : list (string * airport freq_entry) :=
  (fun ka => (ka.1, Airport (a_c ka.2) (a_l ka.2) (a_f ka.2 ++ fs ka.1)))
    <$> airports.

Section row_notions.

Variable float_of_string : string -> option float.

(** The code and the rounded coordinates of an airport row that has the
    three fields and two coordinates that parse. *)
Definition coords_of_row (row : gmap string (option string))
  : option (string * (float * float)) :=
  match row_get row "ICAO", row_get row "lat", row_get row "lon" with
  | Some icao, Some lat, Some lon =>
      if nonempty icao && nonempty lat && nonempty lon then
        match float_of_string lat, float_of_string lon with
        | Some la, Some lo =>
            Some (icao, (py_round_digits la 3, py_round_digits lo 3))
        | _, _ => None
        end
      else None
  | _, _, _ => None
  end.

(** The coordinates of the last row of [rows] that is valid for [icao]. *)
Definition last_coords (rows : list (gmap string (option string)))
  (icao : string) : option (float * float) :=
  last (omap (fun row =>
                match coords_of_row row with
                | Some (k, l) => if decide (k = icao) then Some l else None
                | None => None
                end) rows).

(** The observation of a frequency row: the airport code, the validated
    value in kHz and the raw label, when the frequency parses and lies in
    the band. *)
Definition observation (row : gmap string (option string))
  : option (string * (Z * string)) :=
  match row_get row "airport", row_get row "frequency",
        row_get_default row "type" "" with
  | Some icao, Some freq_raw, Some label =>
      if nonempty freq_raw then
        match float_of_string freq_raw with
        | Some v =>
            match validate v with
            | Some khz => Some (icao, (khz, label))
            | None => None
            end
        | None => None
        end
      else None
  | _, _, _ => None
  end.

(** The observations of [rows] for the airport [icao], in row order. *)
Definition observations_for (icao : string)
  (rows : list (gmap string (option string))) : list (Z * string) :=
  omap (fun row =>
          match observation row with
          | Some (k, o) => if decide (k = icao) then Some o else None
          | None => None
          end) rows.

(** The entries that the frequency loop appends for [icao]. *)
Definition entries_for (icao : string)
  (rows : list (gmap string (option string))) : list freq_entry :=
  observed_entry <$> observations_for icao rows.

(** The list that a run writes when no row raises: the airports of the
    first loop with the entries of their observations, compacted, the ones
    without frequencies left out. *)
Definition written (airport_rows freq_rows : list (gmap string (option string)))
  : list (airport compact_entry) :=
  filter has_freqs
    (finalize <$> dict_values
       (extend (fun icao => entries_for icao freq_rows)
               (build_airports float_of_string airport_rows))).

End row_notions.

(** The rows of the end-to-end scenario. *)
Definition klax_row : gmap string (option string) :=
  {[ "ICAO" := Some "KLAX"; "lat" := Some "33.9425";
     "lon" := Some "-118.408" ]}%string.

Definition klax_tower_row : gmap string (option string) :=
  {[ "airport" := Some "KLAX"; "frequency" := Some "119.8";
     "type" := Some "TOWER" ]}%string.

Definition klax_blank_row : gmap string (option string) :=
  {[ "airport" := Some "KLAX"; "frequency" := Some "119.8";
     "type" := Some "" ]}%string.

(** A short line of the frequency table: only the airport column is
    there, [csv.DictReader] stores [None] for the other two. *)
Definition klax_short_row : gmap string (option string) :=
  {[ "airport" := Some "KLAX"; "frequency" := None;
     "type" := None ]}%string.

(** The record that the scenario is to yield,
    [{"c":"KLAX","l":[33.943,-118.408],"f":[[119800,"T"]]}]. *)
Definition klax_record : airport compact_entry :=
  Airport "KLAX" (of_decimal false 33943 3, of_decimal true 118408 3)
          [CPair 119800 "T"].

(** ** Further notions, for the properties beyond the claims *)

(** The value in kHz of a compacted entry. *)
Definition compact_key (e : compact_entry) : Z :=
  match e with
  | CNum k => k
  | CPair k _ => k
  end.

(** A field that the test [if x] rejects: [None] or the empty string. *)
Definition falsy (o : option string) : Prop := o = None \/ o = Some EmptyString.

(** The codes of the airport rows that create or overwrite a record, in
    row order. *)
Definition valid_codes (float_of_string : string -> option float)
  (rows : list (gmap string (option string))) : list string :=
  omap (fun row => fst <$> coords_of_row float_of_string row) rows.

(** An airport row without a latitude, and a frequency row at 250 MHz. *)
Definition klax_no_lat_row : gmap string (option string) :=
  {[ "ICAO" := Some "KLAX"; "lon" := Some "-118.408" ]}%string.

Definition klax_250_row : gmap string (option string) :=
  {[ "airport" := Some "KLAX"; "frequency" := Some "250";
     "type" := Some "TOWER" ]}%string.

(** The codes of [codes] without repetitions, each at the place of its
    first occurrence: the order of the keys of a [dict] filled by
    assignments [d[k] = ...] in the order of [codes]. *)
Definition first_appearances (codes : list string) : list string :=
  reverse (remove_dups (reverse codes)).

(** A string made of whitespace only (the empty string is one). *)
Fixpoint all_space (s : string) : bool :=
  match s with
  | EmptyString => true
  | String a s' => is_space a && all_space s'
  end.

(** The frequency field of the row, when [float] accepts it, gives a
    binary64 number. *)
Definition frequency_parses_valid (float_of_string : string -> option float)
  (row : gmap string (option string)) : Prop :=
  forall s v, row_get row "frequency" = Some s ->
              float_of_string s = Some v -> valid v = true.

(** A compacted entry is a pair [[kHz, code]]. *)
Definition is_pair (e : compact_entry) : bool :=
  match e with
  | CNum _ => false
  | CPair _ _ => true
  end.

(** The frequency rows of the airport [icao]. *)
Definition rows_of (icao : string) (rows : list (gmap string (option string)))
  : list (gmap string (option string)) :=
  filter (fun r => row_get r "airport" = Some icao) rows.

(** [108000 <= v <= 137000]: a value that is a frequency of the band when
    it is read in kHz. The two bounds are integers, which [float]
    represents exactly. *)
Definition in_khz_band (v : float) : bool :=
  leb (of_Z 108000) v && leb v (of_Z 137000).

(** The record of the airport of the scenario when only the row with the
    blank type is read, [{"c":"KLAX","l":[33.943,-118.408],"f":[119800]}]. *)
Definition klax_untyped_record : airport compact_entry :=
  Airport "KLAX" (of_decimal false 33943 3, of_decimal true 118408 3)
          [CNum 119800].

(** Rows for a run with two airports, where the code KLAX has two valid
    airport rows with different coordinates. *)
Definition klax_earlier_row : gmap string (option string) :=
  {[ "ICAO" := Some "KLAX"; "lat" := Some "34.0";
     "lon" := Some "-118.5" ]}%string.

Definition kjfk_row : gmap string (option string) :=
  {[ "ICAO" := Some "KJFK"; "lat" := Some "40.6398";
     "lon" := Some "-73.7789" ]}%string.

Definition kjfk_ground_row : gmap string (option string) :=
  {[ "airport" := Some "KJFK"; "frequency" := Some "121.9";
     "type" := Some "GROUND" ]}%string.

(** [{"c":"KJFK","l":[40.64,-73.779],"f":[[121900,"G"]]}]. *)
Definition kjfk_record : airport compact_entry :=
  Airport "KJFK" (of_decimal false 40640 3, of_decimal true 73779 3)
          [CPair 121900 "G"].

(** * Properties *)

(** ** Binary64 arithmetic *)

Section float_facts.

Local Abbreviation fexp := (SpecFloat.fexp prec emax).

Lemma digits2_pos_size (p : positive) : digits2_pos p = Pos.size p.
Proof. induction p; simpl; congruence. Qed.

Lemma Zdigits2_log2 (m : Z) : 0 < m -> Zdigits2 m = Z.log2 m + 1.
Proof.
  destruct m as [|p|p]; try lia. intros _. simpl.
  rewrite digits2_pos_size. destruct p; simpl; lia.
Qed.

Lemma Zdigits2_bounds (m : Z) :
  0 < m -> 2 ^ (Zdigits2 m - 1) <= m < 2 ^ Zdigits2 m.
Proof.
  intros Hm. rewrite Zdigits2_log2 by done.
  replace (Z.log2 m + 1 - 1) with (Z.log2 m) by lia.
  apply (Z.log2_spec m Hm).
Qed.

Lemma Zdigits2_unique (m d : Z) :
  0 < d -> 2 ^ (d - 1) <= m < 2 ^ d -> Zdigits2 m = d.
Proof.
  intros Hd Hm.
  assert (0 < m) by (pose proof (Z.pow_pos_nonneg 2 (d - 1)); lia).
  rewrite Zdigits2_log2 by done.
  rewrite (Z.log2_unique m (d - 1)); [lia | lia |].
  replace (Z.succ (d - 1)) with d by lia. done.
Qed.

Lemma shr_1_m (mrs : shr_record) :
  0 <= shr_m mrs -> shr_m (shr_1 mrs) = shr_m mrs / 2.
Proof.
  destruct mrs as [m r s]. simpl. intros Hm.
  destruct m as [|[p|p|]|p]; cbn [shr_m shr_1]; try lia; try reflexivity.
  - apply Z.div_unique with 1; lia.
  - apply Z.div_unique with 0; lia.
Qed.

Lemma shr_1_nonneg (mrs : shr_record) : 0 <= shr_m mrs -> 0 <= shr_m (shr_1 mrs).
Proof.
  intros Hm. rewrite shr_1_m by done. apply Z.div_pos; lia.
Qed.

Lemma iter_pos_shr_m (p : positive) (mrs : shr_record) :
  0 <= shr_m mrs ->
  shr_m (SpecFloat.iter_pos shr_1 p mrs) = shr_m mrs / 2 ^ Zpos p.
Proof.
  revert mrs. induction p as [p IH|p IH|]; intros mrs Hm; simpl SpecFloat.iter_pos.
  - assert (H1 : 0 <= shr_m (shr_1 mrs)) by by apply shr_1_nonneg.
    assert (H2 : 0 <= shr_m (SpecFloat.iter_pos shr_1 p (shr_1 mrs))).
    { rewrite IH by done. apply Z.div_pos; lia. }
    rewrite IH, IH, shr_1_m by done.
    replace (Z.pos p~1) with (1 + Z.pos p + Z.pos p) by lia.
    rewrite !Z.pow_add_r by lia. change (2 ^ 1) with 2.
    assert (0 < 2 ^ Z.pos p) by (apply Z.pow_pos_nonneg; lia).
    rewrite !Z.div_div by lia. f_equal. ring.
  - assert (H2 : 0 <= shr_m (SpecFloat.iter_pos shr_1 p mrs)).
    { rewrite IH by done. apply Z.div_pos; lia. }
    rewrite IH, IH by done.
    replace (Z.pos p~0) with (Z.pos p + Z.pos p) by lia.
    rewrite !Z.pow_add_r by lia.
    assert (0 < 2 ^ Z.pos p) by (apply Z.pow_pos_nonneg; lia).
    rewrite !Z.div_div by lia. done.
  - rewrite shr_1_m by done. done.
Qed.

Lemma shr_m_of_loc (m : Z) (l : location) : shr_m (shr_record_of_loc m l) = m.
Proof. by destruct l as [|[]]. Qed.

(** The two results of [shr_fexp]: the mantissa loses the [n] low bits that
    the format cannot hold. *)
Lemma shr_fexp_spec (m e : Z) (l : location) :
  0 <= m ->
  let n := fexp (Zdigits2 m + e) - e in
  shr_m (shr_fexp prec emax m e l).1 = (if 0 <? n then m / 2 ^ n else m)
  /\ (shr_fexp prec emax m e l).2 = (if 0 <? n then e + n else e).
Proof.
  intros Hm n. unfold shr_fexp. fold n.
  destruct n as [|p|p]; simpl; rewrite ?shr_m_of_loc; try done.
  split; [|done].
  rewrite iter_pos_shr_m; rewrite shr_m_of_loc; done.
Qed.

Lemma round_nearest_even_bounds (m : Z) (l : location) :
  m <= round_nearest_even m l <= m + 1.
Proof. destruct l as [|[]]; simpl; try lia. destruct (Z.even m); lia. Qed.

Lemma binary_round_aux_eq (s : bool) (mx ex : Z) (lx : location) :
  binary_round_aux prec emax s mx ex lx =
  let r1 := shr_fexp prec emax mx ex lx in
  let r2 := shr_fexp prec emax
              (round_nearest_even (shr_m r1.1) (loc_of_shr_record r1.1))
              r1.2 loc_Exact in
  match shr_m r2.1 with
  | Z0 => S754_zero s
  | Zpos m => if r2.2 <=? emax - prec then S754_finite s m r2.2
              else S754_infinity s
  | Zneg _ => S754_nan
  end.
Proof.
  unfold binary_round_aux.
  destruct (shr_fexp prec emax mx ex lx) as [mrs' e']. simpl.
  destruct (shr_fexp prec emax _ e' loc_Exact) as [mrs'' e'']. done.
Qed.

(** Rounding a mantissa of [d >= prec] digits in the range of the normal
    numbers: the result is a valid finite number whose mantissa is the
    truncated one or the next. *)
Lemma binary_round_aux_normal (s : bool) (mx ex : Z) (lx : location) (d : Z) :
  0 < mx -> Zdigits2 mx = d -> prec <= d ->
  SpecFloat.emin prec emax <= d + ex - prec ->
  d + ex - prec + 1 <= emax - prec ->
  let n := d - prec in
  let q := mx / 2 ^ n in
  exists m e,
    binary_round_aux prec emax s mx ex lx = S754_finite s m e
    /\ valid (S754_finite s m e) = true
    /\ ((e = ex + n /\ q <= Zpos m <= q + 1)
        \/ (e = ex + n + 1 /\ Zpos m = 2 ^ (prec - 1) /\ q + 1 = 2 ^ prec)).
Proof.
  intros Hmx Hd Hprec Hmin Hmax n q.
  unfold valid, SpecFloat.emin, prec, emax in *.
  pose proof (Zdigits2_bounds mx Hmx) as Hb. rewrite Hd in Hb.
  assert (Hn : 0 <= n) by (unfold n; lia).
  assert (Hq : 2 ^ 52 <= q < 2 ^ 53).
  { assert (Hp : 0 < 2 ^ n) by (apply Z.pow_pos_nonneg; lia).
    assert (E1 : 2 ^ (d - 1) = 2 ^ n * 2 ^ 52).
    { rewrite <- Z.pow_add_r by lia. f_equal. unfold n. lia. }
    assert (E2 : 2 ^ d = 2 ^ n * 2 ^ 53).
    { rewrite <- Z.pow_add_r by lia. f_equal. unfold n. lia. }
    unfold q. split.
    - apply Z.div_le_lower_bound; lia.
    - apply Z.div_lt_upper_bound; lia. }
  rewrite binary_round_aux_eq.
  destruct (shr_fexp_spec mx ex lx) as [Hm1 He1]; [lia|].
  unfold prec, emax in Hm1, He1. rewrite Hd in Hm1, He1.
  assert (Hf : SpecFloat.fexp 53 1024 (d + ex) - ex = n).
  { unfold SpecFloat.fexp, SpecFloat.emin, n. lia. }
  rewrite Hf in Hm1, He1.
  assert (Hm1' : shr_m (shr_fexp 53 1024 mx ex lx).1 = q).
  { rewrite Hm1. unfold q. destruct (0 <? n) eqn:En; [done|].
    apply Z.ltb_ge in En. replace n with 0 by lia.
    by rewrite Z.div_1_r. }
  assert (He1' : (shr_fexp 53 1024 mx ex lx).2 = ex + n).
  { rewrite He1. destruct (0 <? n) eqn:En; [done|].
    apply Z.ltb_ge in En. lia. }
  cbv zeta. unfold prec, emax. rewrite Hm1', He1'.
  set (l1 := loc_of_shr_record _).
  pose proof (round_nearest_even_bounds q l1) as Hr.
  set (m1 := round_nearest_even q l1) in *.
  destruct (shr_fexp_spec m1 (ex + n) loc_Exact) as [Hm2 He2]; [lia|].
  unfold prec, emax in Hm2, He2.
  destruct (decide (m1 < 2 ^ 53)) as [Hlt|Hge].
  - assert (Hd1 : Zdigits2 m1 = 53).
    { apply Zdigits2_unique; [done|]. change (53 - 1) with 52. lia. }
    rewrite Hd1 in Hm2, He2.
    assert (Hf2 : SpecFloat.fexp 53 1024 (53 + (ex + n)) - (ex + n) = 0).
    { unfold SpecFloat.fexp, SpecFloat.emin, n. lia. }
    rewrite Hf2 in Hm2, He2. simpl in Hm2, He2. rewrite Hm2, He2.
    destruct m1 as [|pm|pm] eqn:Em1; try lia.
    replace (ex + n <=? 1024 - 53) with true
      by (symmetry; apply Z.leb_le; unfold n; lia).
    exists pm, (ex + n). split; [done|]. split; [|left; lia].
    unfold valid_binary, bounded, canonical_mantissa.
    change (Zpos (digits2_pos pm)) with (Zdigits2 (Zpos pm)).
    rewrite Hd1. apply andb_true_iff. split.
    + apply Z.eqb_eq. lia.
    + apply Z.leb_le. unfold n. lia.
  - assert (Em1 : m1 = 2 ^ 53) by lia.
    assert (Hd1 : Zdigits2 m1 = 54) by (by rewrite Em1).
    rewrite Hd1 in Hm2, He2.
    assert (Hf2 : SpecFloat.fexp 53 1024 (54 + (ex + n)) - (ex + n) = 1).
    { unfold SpecFloat.fexp, SpecFloat.emin, n. lia. }
    rewrite Hf2 in Hm2, He2. simpl in Hm2, He2. rewrite Hm2, He2.
    rewrite Em1. change (2 ^ 53 / 2 ^ 1) with (Zpos (2 ^ 52)%positive).
    cbv iota beta.
    replace (ex + n + 1 <=? 1024 - 53) with true
      by (symmetry; apply Z.leb_le; unfold n; lia).
    eexists _, _. split; [done|]. split; [|right; lia].
    unfold valid_binary, bounded, canonical_mantissa.
    apply andb_true_iff. split.
    + apply Z.eqb_eq.
      change (Zpos (digits2_pos (2 ^ 52))) with 53.
      unfold SpecFloat.fexp, SpecFloat.emin, n. lia.
    + apply Z.leb_le. unfold n. lia.
Qed.

End float_facts.

(** ** The frequency validator *)

Section validator_facts.

Lemma round_half_even_lower (p q c : Z) :
  0 < q -> (2 * c - 1) * q < 2 * p -> c <= round_half_even p q.
Proof.
  intros Hq Hp. unfold round_half_even.
  pose proof (Z.div_mod p q ltac:(lia)) as Hdiv.
  pose proof (Z.mod_pos_bound p q Hq) as Hmod.
  destruct (Z.compare_spec (2 * (p mod q)) q);
    [destruct (Z.even (p / q))|..]; nia.
Qed.

Lemma round_half_even_upper (p q c : Z) :
  0 < q -> 2 * p < (2 * c + 1) * q -> round_half_even p q <= c.
Proof.
  intros Hq Hp. unfold round_half_even.
  pose proof (Z.div_mod p q ltac:(lia)) as Hdiv.
  pose proof (Z.mod_pos_bound p q Hq) as Hmod.
  destruct (Z.compare_spec (2 * (p mod q)) q);
    [destruct (Z.even (p / q))|..]; nia.
Qed.

Lemma round_half_even_near (p q c : Z) :
  0 < q -> (2 * c - 1) * q < 2 * p < (2 * c + 1) * q ->
  round_half_even p q = c.
Proof.
  intros Hq [Hlo Hhi].
  pose proof (round_half_even_lower p q c Hq Hlo).
  pose proof (round_half_even_upper p q c Hq Hhi). lia.
Qed.

Lemma mul_finite (s1 s2 : bool) (m1 m2 : positive) (e1 e2 : Z) :
  mul (S754_finite s1 m1 e1) (S754_finite s2 m2 e2) =
  binary_round_aux prec emax (xorb s1 s2) (Zpos m1 * Zpos m2) (e1 + e2) loc_Exact.
Proof. reflexivity. Qed.

Lemma valid_normal_digits (s : bool) (m : positive) (e : Z) :
  valid (S754_finite s m e) = true -> SpecFloat.emin prec emax < e ->
  2 ^ 52 <= Zpos m < 2 ^ 53.
Proof.
  unfold valid, valid_binary, bounded, canonical_mantissa, SpecFloat.fexp,
    SpecFloat.emin, prec, emax.
  intros [Hc _]%andb_true_iff He. apply Z.eqb_eq in Hc.
  pose proof (Zdigits2_bounds (Zpos m) ltac:(lia)) as Hb.
  change (Zdigits2 (Zpos m)) with (Zpos (digits2_pos m)) in Hb.
  replace (Zpos (digits2_pos m)) with 53 in Hb by lia.
  exact Hb.
Qed.

Lemma leb_finite (s : bool) (M1 M2 : positive) (e1 e2 : Z) :
  leb (S754_finite false M1 e1) (S754_finite s M2 e2) = true ->
  s = false /\ (e1 < e2 \/ (e1 = e2 /\ Zpos M1 <= Zpos M2)).
Proof.
  unfold leb, SFleb, SFcompare. destruct s; [discriminate|].
  change (Pos.compare_cont Eq M1 M2) with (Pos.compare M1 M2).
  destruct (Z.compare_spec e1 e2); [|intros _; split; [done|lia]|discriminate].
  destruct (Pos.compare_spec M1 M2); intros; try discriminate; split; try done; lia.
Qed.

Lemma leb_finite_l (s : bool) (M1 M2 : positive) (e1 e2 : Z) :
  leb (S754_finite s M1 e1) (S754_finite false M2 e2) = true -> s = false ->
  e1 < e2 \/ (e1 = e2 /\ Zpos M1 <= Zpos M2).
Proof. intros H ->. by apply leb_finite in H as [_ H]. Qed.

Lemma ltb_finite (s : bool) (M1 M2 : positive) (e1 e2 : Z) :
  ltb (S754_finite false M1 e1) (S754_finite s M2 e2) = true ->
  s = false /\ e1 <= e2.
Proof.
  unfold ltb, SFltb, SFcompare. destruct s; [discriminate|].
  destruct (Z.compare_spec e1 e2); intros; try discriminate; split; try done; lia.
Qed.

(** A valid float inside the band is positive, with one of two exponents. *)
Lemma in_band_inv (m : float) :
  valid m = true -> in_band m = true ->
  exists M e, m = S754_finite false M e
    /\ ((e = -46 /\ 108 * 2 ^ 46 <= Zpos M < 2 ^ 53)
        \/ (e = -45 /\ 2 ^ 52 <= Zpos M <= 137 * 2 ^ 45)).
Proof.
  intros Hv Hb. unfold in_band, VHF_MIN, VHF_MAX in Hb.
  apply andb_true_iff in Hb as [Hlo Hhi].
  destruct m as [s|s| |s M e];
    [cbv in Hlo; discriminate Hlo
    |destruct s; [cbv in Hlo; discriminate Hlo|cbv in Hhi; discriminate Hhi]
    |cbv in Hlo; discriminate Hlo|].
  apply leb_finite in Hlo as [-> Hlo].
  apply leb_finite_l in Hhi; [|reflexivity].
  exists M, e. split; [reflexivity|].
  assert (Hd : 2 ^ 52 <= Zpos M < 2 ^ 53).
  { apply (valid_normal_digits false M e Hv).
    unfold SpecFloat.emin, prec, emax. lia. }
  lia.
Qed.

Lemma div_floor_bounds (p n : Z) :
  0 <= n -> 2 ^ n * (p / 2 ^ n) <= p < 2 ^ n * (p / 2 ^ n + 1).
Proof.
  intros Hn. assert (Hp : 0 < 2 ^ n) by (apply Z.pow_pos_nonneg; lia).
  pose proof (Z.div_mod p (2 ^ n) ltac:(lia)).
  pose proof (Z.mod_pos_bound p (2 ^ n) Hp). lia.
Qed.

(** The product of a float of the band by 1000 is a float that differs
    from the exact product by less than one unit in the last place. The
    mantissas are compared at the scale 2^-46. *)
Lemma mul_f1000_faithful (M : positive) (e : Z) :
  (e = -46 /\ 108 * 2 ^ 46 <= Zpos M < 2 ^ 53)
  \/ (e = -45 /\ 2 ^ 52 <= Zpos M <= 137 * 2 ^ 45) ->
  exists M2 e2,
    mul (S754_finite false M e) f1000 = S754_finite false M2 e2
    /\ ((e = -46 /\ e2 = -36
         /\ -2 ^ 10 <= Zpos M2 * 2 ^ 10 - 1000 * Zpos M <= 2 ^ 10)
        \/ (e = -45 /\ e2 = -36
            /\ -2 ^ 10 <= Zpos M2 * 2 ^ 10 - 2000 * Zpos M <= 2 ^ 10)
        \/ (e = -45 /\ e2 = -35
            /\ -2 ^ 11 <= Zpos M2 * 2 ^ 11 - 2000 * Zpos M <= 2 ^ 11)).
Proof.
  intros Hcases. unfold f1000. rewrite mul_finite. cbn [xorb].
  set (P := Zpos M * Zpos 8796093022208000).
  assert (HP : P = Zpos M * 8796093022208000) by done.
  assert (Hrange :
    (e = -46 /\ 108000 * 2 ^ 89 <= P < 1000 * 2 ^ 96) \/
    (e = -45 /\ 2 ^ 105 <= P <= 137000 * 2 ^ 88) \/
    (e = -45 /\ 128000 * 2 ^ 88 <= P < 2 ^ 105)).
  { destruct Hcases as [[-> H]|[-> H]]; [left; lia|].
    destruct (decide (2 ^ 105 <= P)); [|right; right; lia].
    right; left. lia. }
  clearbody P. clear Hcases.
  destruct Hrange as [[-> HPr]|[[-> HPr]|[-> HPr]]].
  - destruct (binary_round_aux_normal false P (-46 + -43) loc_Exact 106)
      as (M2 & e2 & -> & _ & Hres);
      [lia|apply Zdigits2_unique; lia|done|done|done|].
    change (106 - prec) with 53 in Hres. change (prec - 1) with 52 in Hres.
    change (-46 + -43 + 53) with (-36) in Hres. unfold prec in Hres.
    pose proof (div_floor_bounds P 53 ltac:(lia)) as Hq.
    exists M2, e2. split; [done|]. left.
    destruct Hres as [[-> Hm]|[-> [Hm Hc]]]; [|lia].
    split_and!; [done|done|lia..].
  - destruct (binary_round_aux_normal false P (-45 + -43) loc_Exact 106)
      as (M2 & e2 & -> & _ & Hres);
      [lia|apply Zdigits2_unique; lia|done|done|done|].
    change (106 - prec) with 53 in Hres. change (prec - 1) with 52 in Hres.
    change (-45 + -43 + 53) with (-35) in Hres. unfold prec in Hres.
    pose proof (div_floor_bounds P 53 ltac:(lia)) as Hq.
    exists M2, e2. split; [done|]. right; right.
    destruct Hres as [[-> Hm]|[-> [Hm Hc]]]; [|lia].
    split_and!; [done|done|lia..].
  - destruct (binary_round_aux_normal false P (-45 + -43) loc_Exact 105)
      as (M2 & e2 & -> & _ & Hres);
      [lia|apply Zdigits2_unique; lia|done|done|done|].
    change (105 - prec) with 52 in Hres. change (prec - 1) with 52 in Hres.
    change (-45 + -43 + 52) with (-36) in Hres.
    change (-36 + 1) with (-35) in Hres. unfold prec in Hres.
    pose proof (div_floor_bounds P 52 ltac:(lia)) as Hq.
    exists M2, e2. split; [done|].
    destruct Hres as [[-> Hm]|[-> [Hm Hc]]].
    + right; left. split_and!; [done|done|lia..].
    + right; right. split_and!; [done|done|lia..].
Qed.

Lemma py_round_finite_neg (M : positive) (d : positive) :
  py_round (S754_finite false M (Zneg d))
  = Some (round_half_even (Zpos M) (2 ^ Zpos d)).
Proof. reflexivity. Qed.

(** The accepted values are exactly the integers of the band in kHz. *)
Lemma in_band_khz (m : float) :
  valid m = true -> in_band m = true ->
  exists k, py_round (mul m f1000) = Some k /\ 108000 <= k <= 137000.
Proof.
  intros Hv Hb.
  destruct (in_band_inv m Hv Hb) as (M & e & -> & Hcases).
  destruct (mul_f1000_faithful M e Hcases) as (M2 & e2 & -> & Hres).
  destruct Hres as [(-> & -> & HM2)|[(-> & -> & HM2)|(-> & -> & HM2)]];
    rewrite py_round_finite_neg; eexists; (split; [reflexivity|]);
    (split; [apply round_half_even_lower|apply round_half_even_upper]); lia.
Qed.

End validator_facts.

Section rescale_facts.

Lemma Zdigits2_between (m a b : Z) :
  0 < a -> 2 ^ (a - 1) <= m < 2 ^ b -> a <= Zdigits2 m <= b.
Proof.
  intros Ha [Hlo Hhi].
  assert (0 < m) by (pose proof (Z.pow_pos_nonneg 2 (a - 1)); lia).
  rewrite Zdigits2_log2 by done.
  pose proof (Z.log2_le_pow2 m (a - 1) ltac:(done)).
  pose proof (Z.log2_lt_pow2 m b ltac:(done)).
  lia.
Qed.

Lemma div_f1000_finite (s : bool) (M : positive) (e : Z) :
  2 ^ 52 <= Zpos M < 2 ^ 53 -> -44 <= e ->
  div (S754_finite s M e) f1000 =
  binary_round_aux prec emax s (Zpos M * 2 ^ 53 / 8796093022208000) (e - 10)
    (new_location 8796093022208000 (Zpos M * 2 ^ 53 mod 8796093022208000)).
Proof.
  intros HM He. unfold div, f1000, SFdiv, SFdiv_core_binary.
  rewrite (Zdigits2_unique (Zpos M) 53) by (change (53 - 1) with 52; lia).
  change (Zdigits2 8796093022208000) with 53.
  replace (Z.min _ (e - -43)) with (e - 10)
    by (unfold SpecFloat.fexp, SpecFloat.emin, prec, emax; lia).
  replace (e - -43 - (e - 10)) with 53 by lia.
  cbv zeta iota beta. rewrite Z.shiftl_mul_pow2 by lia.
  unfold Z.div, Z.modulo.
  destruct (Z.div_eucl _ _) as [q r]. cbn [xorb]. by destruct s.
Qed.

Lemma div_f1000_valid (v : float) :
  valid v = true -> ltb f500 v = true -> valid (div v f1000) = true.
Proof.
  intros Hv Hlt. unfold f500 in Hlt.
  destruct v as [s|s| |s M e];
    [cbv in Hlt; discriminate Hlt
    |destruct s; [cbv in Hlt; discriminate Hlt|reflexivity]
    |cbv in Hlt; discriminate Hlt|].
  apply ltb_finite in Hlt as [-> He].
  assert (HM : 2 ^ 52 <= Zpos M < 2 ^ 53).
  { apply (valid_normal_digits false M e Hv). unfold SpecFloat.emin, prec, emax. lia. }
  assert (Hmax : e <= 971).
  { unfold valid, valid_binary, bounded, prec, emax in Hv.
    apply andb_true_iff in Hv as [_ Hv]. apply Z.leb_le in Hv. lia. }
  rewrite div_f1000_finite by done.
  set (q := Zpos M * 2 ^ 53 / 8796093022208000).
  assert (Hq : 2 ^ 52 <= q < 2 ^ 54).
  { unfold q. split; [apply Z.div_le_lower_bound; lia|].
    apply Z.div_lt_upper_bound; lia. }
  pose proof (Zdigits2_between q 53 54 ltac:(done) Hq) as Hd.
  destruct (binary_round_aux_normal false q (e - 10)
              (new_location 8796093022208000 (Zpos M * 2 ^ 53 mod 8796093022208000))
              (Zdigits2 q))
    as (m' & e' & -> & Hvalid & _); unfold SpecFloat.emin, prec, emax; try lia; done.
Qed.

Lemma rescale_valid (v : float) : valid v = true -> valid (rescale v) = true.
Proof.
  intros Hv. unfold rescale. destruct (ltb f500 v) eqn:Hlt; [|done].
  by apply div_f1000_valid.
Qed.




Lemma leb_finite_intro (M1 M2 : positive) (e1 e2 : Z) :
  e1 < e2 \/ (e1 = e2 /\ Zpos M1 <= Zpos M2) ->
  leb (S754_finite false M1 e1) (S754_finite false M2 e2) = true.
Proof.
  unfold leb, SFleb, SFcompare.
  change (Pos.compare_cont Eq M1 M2) with (Pos.compare M1 M2).
  destruct (Z.compare_spec e1 e2); [|done|lia].
  destruct (Pos.compare_spec M1 M2); try done. lia.
Qed.

Lemma ltb_finite_gt (M1 M2 : positive) (e1 e2 : Z) :
  e2 < e1 -> ltb (S754_finite false M1 e1) (S754_finite false M2 e2) = false.
Proof.
  unfold ltb, SFltb, SFcompare. destruct (Z.compare_spec e1 e2); [lia..|done].
Qed.


End rescale_facts.

Lemma in_band_not_rescaled (m : float) :
  valid m = true -> in_band m = true -> rescale m = m.
Proof.
  intros Hv Hb. destruct (in_band_inv m Hv Hb) as (M & e & -> & Hcases).
  unfold rescale, f500.
  by rewrite ltb_finite_gt by (destruct Hcases as [[-> _]|[-> _]]; lia).
Qed.



(** ** Dictionaries and sorting *)

Section dict_facts.
Context {K V : Type} `{EqDecision K}.
Implicit Types (d : list (K * V)) (k : K) (v : V).

Lemma dict_keys_cons k v d : dict_keys ((k, v) :: d) = k :: dict_keys d.
Proof. reflexivity. Qed.

Lemma dict_get_set d k v k' :
  dict_get (dict_set d k v) k' =
  if decide (k' = k) then Some v else dict_get d k'.
Proof.
  induction d as [|[k0 v0] d IH]; simpl.
  - by destruct (decide (k' = k)).
  - destruct (decide (k = k0)) as [->|Hne]; simpl.
    + by destruct (decide (k' = k0)).
    + rewrite IH. destruct (decide (k' = k0)) as [->|?]; [|done].
      by rewrite decide_False.
Qed.

Lemma dict_get_None d k : dict_get d k = None <-> k ∉ dict_keys d.
Proof.
  induction d as [|[k0 v0] d IH]; cbn [dict_get].
  - split; [intros _; apply not_elem_of_nil|done].
  - rewrite dict_keys_cons, not_elem_of_cons.
    destruct (decide (k = k0)) as [->|Hne]; [|rewrite IH; tauto].
    split; [done|]. intros [Hk _]. by destruct Hk.
Qed.

Lemma dict_get_Some_elem d k v : dict_get d k = Some v -> (k, v) ∈ d.
Proof.
  induction d as [|[k0 v0] d IH]; simpl; [done|].
  destruct (decide (k = k0)) as [->|?].
  - intros [= ->]. left.
  - intros. right. auto.
Qed.

Lemma dict_get_Some_key d k v : dict_get d k = Some v -> k ∈ dict_keys d.
Proof.
  intros Hk. destruct (decide (k ∈ dict_keys d)) as [|Hn]; [done|].
  apply dict_get_None in Hn. congruence.
Qed.

Lemma dict_get_elem d k v :
  NoDup (dict_keys d) -> (k, v) ∈ d -> dict_get d k = Some v.
Proof.
  induction d as [|[k0 v0] d IH]; cbn [dict_get].
  - intros _ H'. by apply elem_of_nil in H'.
  - rewrite dict_keys_cons, NoDup_cons.
    intros [Hk0 Hnd] [[= -> ->]|Hin]%elem_of_cons.
    + by rewrite decide_True.
    + rewrite decide_False; [auto|]. intros ->. apply Hk0.
      apply list_elem_of_fmap. by exists (k0, v).
Qed.

Lemma dict_keys_set d k v :
  dict_keys (dict_set d k v) =
  match dict_get d k with
  | Some _ => dict_keys d
  | None => dict_keys d ++ [k]
  end.
Proof.
  induction d as [|[k0 v0] d IH]; cbn [dict_get dict_set]; [done|].
  destruct (decide (k = k0)) as [->|?]; [done|].
  rewrite !dict_keys_cons, IH. by destruct (dict_get d k).
Qed.

Lemma dict_keys_set_NoDup d k v :
  NoDup (dict_keys d) -> NoDup (dict_keys (dict_set d k v)).
Proof.
  intros Hnd. rewrite dict_keys_set.
  destruct (dict_get d k) eqn:E; [done|].
  apply dict_get_None in E. apply NoDup_app.
  split_and!; [done| |apply NoDup_singleton].
  by intros x Hx ->%list_elem_of_singleton.
Qed.

(** The values of a dictionary whose lookups are given by [g]. *)
Lemma dict_values_fmap d (g : K -> V) :
  NoDup (dict_keys d) ->
  (forall k v, dict_get d k = Some v -> v = g k) ->
  dict_values d = g <$> dict_keys d.
Proof.
  induction d as [|[k0 v0] d IH]; [done|].
  rewrite dict_keys_cons, NoDup_cons. intros [Hk0 Hnd] Hg.
  change (dict_values ((k0, v0) :: d)) with (v0 :: dict_values d).
  rewrite fmap_cons. f_equal.
  - apply Hg. simpl. by rewrite decide_True.
  - apply IH; [done|]. intros k v Hkv. apply Hg. simpl.
    rewrite decide_False; [done|]. intros ->. apply Hk0.
    by eapply dict_get_Some_key.
Qed.

End dict_facts.

Section sorted_facts.
Context {A : Type} (key : A -> Z).
Implicit Types (x : A) (xs : list A).

Lemma insert_sorted_Permutation x xs : insert_sorted key x xs ≡ₚ x :: xs.
Proof.
  induction xs as [|y xs IH]; simpl; [done|].
  destruct (key x <=? key y); [done|]. rewrite IH. apply Permutation_swap.
Qed.

Lemma sorted_Permutation xs : sorted key xs ≡ₚ xs.
Proof.
  induction xs as [|x xs IH]; simpl; [done|].
  by rewrite insert_sorted_Permutation, IH.
Qed.

Lemma elem_of_sorted x xs : x ∈ sorted key xs <-> x ∈ xs.
Proof. by rewrite sorted_Permutation. Qed.

End sorted_facts.

Lemma insert_sorted_StronglySorted (z : Z) (zs : list Z) :
  StronglySorted Z.le zs -> StronglySorted Z.le (insert_sorted id z zs).
Proof.
  induction 1 as [|y zs Hs IH Hy]; simpl.
  - repeat constructor.
  - change (id z) with z. change (id y) with y. destruct (Z.leb_spec z y).
    + constructor; [by constructor|]. constructor; [done|].
      eapply Forall_impl; [done|]. simpl. lia.
    + constructor; [done|].
      rewrite insert_sorted_Permutation. constructor; [lia|done].
Qed.

Lemma sorted_StronglySorted (zs : list Z) : StronglySorted Z.le (sorted id zs).
Proof.
  induction zs as [|z zs IH]; simpl; [constructor|].
  by apply insert_sorted_StronglySorted.
Qed.

Lemma StronglySorted_le_lt (zs : list Z) :
  StronglySorted Z.le zs -> NoDup zs -> StronglySorted Z.lt zs.
Proof.
  induction 1 as [|z zs Hs IH Hz]; [constructor|].
  rewrite NoDup_cons. intros [Hnin Hnd]. constructor; [auto|].
  rewrite Forall_forall in Hz |- *. intros y Hy.
  specialize (Hz y Hy). assert (y <> z) by (by intros ->). lia.
Qed.

Lemma StronglySorted_lt_NoDup (zs : list Z) :
  StronglySorted Z.lt zs -> NoDup zs.
Proof.
  induction 1 as [|z zs Hs IH Hz]; [constructor|].
  apply NoDup_cons. split; [|done]. intros Hin.
  rewrite Forall_forall in Hz. specialize (Hz z Hin). lia.
Qed.

Lemma StronglySorted_lt_unique (l1 l2 : list Z) :
  StronglySorted Z.lt l1 -> StronglySorted Z.lt l2 ->
  (forall z, z ∈ l1 <-> z ∈ l2) -> l1 = l2.
Proof.
  intros H1 H2 Hel. apply (StronglySorted_unique_strong Z.lt); [lia|done..|].
  apply NoDup_Permutation; auto using StronglySorted_lt_NoDup.
Qed.

Lemma sorted_NoDup_lt (zs : list Z) :
  NoDup zs -> StronglySorted Z.lt (sorted id zs).
Proof.
  intros Hnd. apply StronglySorted_le_lt; [apply sorted_StronglySorted|].
  by rewrite sorted_Permutation.
Qed.

Lemma insert_sorted_ext {A} (key1 key2 : A -> Z) (x : A) (ys : list A) :
  key1 x = key2 x -> (forall y, y ∈ ys -> key1 y = key2 y) ->
  insert_sorted key1 x ys = insert_sorted key2 x ys.
Proof.
  intros Hx. induction ys as [|y ys IH]; simpl; [done|]. intros Hs.
  rewrite Hx, (Hs y) by left. destruct (key2 x <=? key2 y); [done|].
  f_equal. apply IH. intros; apply Hs; by right.
Qed.

Lemma sorted_ext {A} (key1 key2 : A -> Z) (xs : list A) :
  (forall x, x ∈ xs -> key1 x = key2 x) -> sorted key1 xs = sorted key2 xs.
Proof.
  induction xs as [|x xs IH]; simpl; [done|]. intros Hk.
  rewrite IH by (intros; apply Hk; by right).
  apply insert_sorted_ext; [apply Hk; left|].
  intros y Hy. apply Hk. right. by apply elem_of_sorted in Hy.
Qed.

Lemma insert_sorted_fmap_in {A B} (key : B -> Z) (g : A -> B)
  (x : A) (ys : list A) :
  insert_sorted key (g x) (g <$> ys) = g <$> insert_sorted (key ∘ g) x ys.
Proof.
  induction ys as [|y ys IH]; [done|].
  rewrite fmap_cons. cbn [insert_sorted compose].
  destruct (key (g x) <=? key (g y)); rewrite !fmap_cons; [done|].
  by rewrite IH.
Qed.

Lemma sorted_fmap_in {A B} (key : B -> Z) (g : A -> B) (xs : list A) :
  sorted key (g <$> xs) = g <$> sorted (key ∘ g) xs.
Proof.
  induction xs as [|x xs IH]; [done|].
  rewrite fmap_cons. cbn [sorted foldr]. fold (sorted key (g <$> xs)).
  fold (sorted (key ∘ g) xs). by rewrite IH, insert_sorted_fmap_in.
Qed.

(** ** Removal of duplicates *)

Section dedup_facts.
Implicit Types (fs : list freq_entry) (k : Z) (e x : freq_entry).

Lemma find_app {A} (p : A -> bool) (l1 l2 : list A) :
  List.find p (l1 ++ l2) =
  match List.find p l1 with
  | Some a => Some a
  | None => List.find p l2
  end.
Proof.
  induction l1 as [|a l1 IH]; simpl; [done|]. by destruct (p a).
Qed.

Lemma find_ext_elem {A} (p q : A -> bool) (l : list A) :
  (forall a, a ∈ l -> p a = q a) -> List.find p l = List.find q l.
Proof.
  induction l as [|a l IH]; simpl; [done|]. intros Hpq.
  rewrite (Hpq a) by left. destruct (q a); [done|].
  apply IH. intros; apply Hpq; by right.
Qed.

Lemma find_Some_elem {A} (p : A -> bool) (l : list A) (a : A) :
  List.find p l = Some a -> a ∈ l /\ p a = true.
Proof.
  intros [Hin Hp]%find_some. split; [by apply list_elem_of_In|done].
Qed.

Lemma find_None_elem {A} (p : A -> bool) (l : list A) (a : A) :
  List.find p l = None -> a ∈ l -> p a = false.
Proof. intros Hn Hin%list_elem_of_In. by eapply find_none. Qed.

Lemma freq_key_first_dict fs k : freq_key (first_dict fs k) = k.
Proof.
  unfold first_dict.
  destruct (List.find _ fs) as [e|] eqn:E; [|done].
  apply find_Some_elem in E as [_ [Hk _]%andb_true_iff]. by apply Z.eqb_eq.
Qed.

Lemma first_dict_snoc fs x k :
  first_dict (fs ++ [x]) k =
  if is_dict (first_dict fs k) then first_dict fs k
  else if (freq_key x =? k) && is_dict x then x else Num k.
Proof.
  unfold first_dict. rewrite find_app.
  destruct (List.find _ fs) as [e|] eqn:E; simpl.
  - apply find_Some_elem in E as [_ [_ ->]%andb_true_iff]. done.
  - by destruct ((freq_key x =? k) && is_dict x).
Qed.

Lemma first_dict_not_dict fs k :
  is_dict (first_dict fs k) = false -> first_dict fs k = Num k.
Proof.
  unfold first_dict. destruct (List.find _ fs) as [e|] eqn:E; [|done].
  apply find_Some_elem in E as [_ [_ ->]%andb_true_iff]. done.
Qed.

(** The dictionary that the loop builds: its keys are distinct, they are
    the values in kHz of the input, and each holds the first dictionary
    entry of its value, or else the number. *)
Lemma build_freq_dict_spec fs :
  NoDup (dict_keys (build_freq_dict fs))
  /\ forall k, dict_get (build_freq_dict fs) k =
       if decide (k ∈ freq_key <$> fs) then Some (first_dict fs k) else None.
Proof.
  unfold build_freq_dict. induction fs as [|x fs [IHnd IH]] using rev_ind.
  { split; [constructor|]. intros k. rewrite decide_False; [done|].
    apply not_elem_of_nil. }
  rewrite fold_left_app. cbn [fold_left].
  set (d := fold_left dedup_step fs []) in *.
  assert (Hmem : forall k, k ∈ freq_key <$> fs ++ [x]
                           <-> k ∈ freq_key <$> fs \/ k = freq_key x).
  { intros k. rewrite fmap_app, elem_of_app. simpl.
    by rewrite list_elem_of_singleton. }
  split.
  - destruct x as [kx|kx t]; simpl.
    + destruct (dict_get d kx); [done|]. by apply dict_keys_set_NoDup.
    + destruct (dict_get d kx) as [old|]; [destruct (is_dict old); [done|]|];
        by apply dict_keys_set_NoDup.
  - intros k. rewrite first_dict_snoc.
    destruct x as [kx|kx t]; cbn [dedup_step freq_key is_dict].
    + rewrite andb_false_r.
      pose proof (IH kx) as Hkx.
      destruct (decide (k = kx)) as [->|Hne].
      * rewrite (decide_True (P := kx ∈ _)) by (apply Hmem; by right).
        destruct (decide (kx ∈ freq_key <$> fs)) as [Hin|Hnin].
        -- rewrite Hkx, IH, decide_True by done.
           destruct (is_dict (first_dict fs kx)) eqn:Ed; [done|].
           by rewrite first_dict_not_dict.
        -- rewrite Hkx, dict_get_set, decide_True by done.
           assert (Ed : first_dict fs kx = Num kx).
           { unfold first_dict. destruct (List.find _ fs) as [e|] eqn:E; [|done].
             apply find_Some_elem in E as [Hin [Hk _]%andb_true_iff].
             apply Z.eqb_eq in Hk. exfalso. apply Hnin.
             apply list_elem_of_fmap. by exists e. }
           by rewrite Ed.
      * assert (Hget : dict_get (match dict_get d kx with
                                  | Some _ => d
                                  | None => dict_set d kx (Num kx)
                                  end) k = dict_get d k).
        { destruct (dict_get d kx); [done|].
          by rewrite dict_get_set, decide_False. }
        rewrite Hget, IH.
        destruct (decide (k ∈ freq_key <$> fs)) as [Hin|Hnin].
        -- rewrite decide_True by (apply Hmem; by left).
           destruct (is_dict (first_dict fs k)) eqn:Ed; [done|].
           by rewrite first_dict_not_dict.
        -- rewrite decide_False; [done|]. rewrite Hmem. by intros [?|?].
    + rewrite andb_true_r.
      pose proof (IH kx) as Hkx.
      destruct (decide (k = kx)) as [->|Hne].
      * rewrite (decide_True (P := kx ∈ _)) by (apply Hmem; by right).
        rewrite Z.eqb_refl.
        destruct (decide (kx ∈ freq_key <$> fs)) as [Hin|Hnin].
        -- rewrite Hkx.
           destruct (is_dict (first_dict fs kx)) eqn:Ed.
           ++ by rewrite IH, decide_True.
           ++ by rewrite dict_get_set, decide_True.
        -- rewrite Hkx, dict_get_set, decide_True by done.
           assert (Ed : first_dict fs kx = Num kx).
           { unfold first_dict. destruct (List.find _ fs) as [e|] eqn:E; [|done].
             apply find_Some_elem in E as [Hin [Hk _]%andb_true_iff].
             apply Z.eqb_eq in Hk. exfalso. apply Hnin.
             apply list_elem_of_fmap. by exists e. }
           by rewrite Ed.
      * assert (Hget : dict_get (match dict_get d kx with
                                  | Some old =>
                                      if is_dict old then d
                                      else dict_set d kx (Dict kx t)
                                  | None => dict_set d kx (Dict kx t)
                                  end) k = dict_get d k).
        { destruct (dict_get d kx) as [old|]; [destruct (is_dict old); [done|]|];
            by rewrite dict_get_set, decide_False. }
        rewrite Hget, IH.
        replace (kx =? k) with false by (symmetry; apply Z.eqb_neq; congruence).
        destruct (decide (k ∈ freq_key <$> fs)) as [Hin|Hnin].
        -- rewrite decide_True by (apply Hmem; by left).
           destruct (is_dict (first_dict fs k)) eqn:Ed; [done|].
           by rewrite first_dict_not_dict.
        -- rewrite decide_False; [done|]. rewrite Hmem. by intros [?|?].
Qed.

(** The sorted list is determined by the input: one entry per value in
    kHz, ascending. *)
Lemma freq_list_normal_form fs :
  freq_list fs = first_dict fs <$> sorted id (remove_dups (freq_key <$> fs)).
Proof.
  destruct (build_freq_dict_spec fs) as [Hnd Hget].
  unfold freq_list.
  rewrite (dict_values_fmap _ (first_dict fs)); [|done|]; last first.
  { intros k v. rewrite Hget. by destruct (decide _); intros [= <-]. }
  rewrite sorted_fmap_in.
  rewrite (sorted_ext _ id)
    by (intros; unfold compose; apply freq_key_first_dict).
  f_equal. apply StronglySorted_lt_unique.
  - by apply sorted_NoDup_lt.
  - apply sorted_NoDup_lt, NoDup_remove_dups.
  - intros k. rewrite !elem_of_sorted, elem_of_remove_dups.
    destruct (decide (k ∈ dict_keys (build_freq_dict fs))) as [Hin|Hnin].
    + split; [intros _|done].
      destruct (dict_get (build_freq_dict fs) k) eqn:E.
      * rewrite Hget in E. by destruct (decide _).
      * by apply dict_get_None in E.
    + split; [done|]. intros Hk. exfalso.
      apply dict_get_None in Hnin. rewrite Hget, decide_True in Hnin; done.
Qed.

Lemma freq_list_keys fs :
  freq_key <$> freq_list fs = sorted id (remove_dups (freq_key <$> fs)).
Proof.
  rewrite freq_list_normal_form, <- list_fmap_compose.
  rewrite <- (list_fmap_id (sorted id _)) at 2.
  apply list_fmap_ext. intros. apply freq_key_first_dict.
Qed.

Lemma freq_list_sorted fs : StronglySorted Z.lt (freq_key <$> freq_list fs).
Proof. rewrite freq_list_keys. apply sorted_NoDup_lt, NoDup_remove_dups. Qed.

Lemma elem_of_freq_list_keys fs k :
  k ∈ freq_key <$> freq_list fs <-> k ∈ freq_key <$> fs.
Proof. by rewrite freq_list_keys, elem_of_sorted, elem_of_remove_dups. Qed.

Lemma elem_of_freq_list fs e :
  e ∈ freq_list fs <-> e = first_dict fs (freq_key e) /\ freq_key e ∈ freq_key <$> fs.
Proof.
  split.
  - intros Hin. split.
    + rewrite freq_list_normal_form in Hin.
      apply list_elem_of_fmap in Hin as (k & -> & _).
      by rewrite freq_key_first_dict.
    + apply elem_of_freq_list_keys, list_elem_of_fmap. by exists e.
  - intros [He Hk]. rewrite freq_list_normal_form. apply list_elem_of_fmap.
    exists (freq_key e). split; [done|].
    by rewrite elem_of_sorted, elem_of_remove_dups.
Qed.

Lemma first_dict_survivor fs k :
  well_typed fs -> first_dict fs k = survivor fs k.
Proof.
  intros Hwt. unfold first_dict, survivor.
  rewrite (find_ext_elem _ (fun x => (freq_key x =? k) && has_type x)); [done|].
  intros x Hin.
  unfold well_typed in Hwt. rewrite Forall_forall in Hwt.
  by rewrite (Hwt x Hin).
Qed.

(** A list with ascending distinct values is left as it is. *)
Lemma freq_list_fixed fs :
  StronglySorted Z.lt (freq_key <$> fs) -> freq_list fs = fs.
Proof.
  intros Hs. pose proof (StronglySorted_lt_NoDup _ Hs) as Hnd.
  rewrite freq_list_normal_form.
  replace (sorted id (remove_dups (freq_key <$> fs))) with (freq_key <$> fs).
  2:{ apply StronglySorted_lt_unique; [done|apply sorted_NoDup_lt, NoDup_remove_dups|].
      intros k. by rewrite elem_of_sorted, elem_of_remove_dups. }
  rewrite <- list_fmap_compose. rewrite <- (list_fmap_id fs) at 3.
  apply list_fmap_ext. intros i e Hi. unfold compose, first_dict.
  assert (Hin : e ∈ fs) by by eapply list_elem_of_lookup_2.
  assert (Huniq : forall e', e' ∈ fs -> freq_key e' = freq_key e -> e' = e).
  { intros e' Hin' Hk. apply list_elem_of_lookup in Hin' as [j Hj].
    assert (i = j); [|congruence].
    eapply NoDup_lookup; [exact Hnd| |]; rewrite list_lookup_fmap.
    - by rewrite Hi.
    - rewrite Hj. simpl. by rewrite Hk. }
  destruct (List.find _ fs) as [e'|] eqn:E.
  - apply find_Some_elem in E as [Hin' [Hk _]%andb_true_iff].
    apply Z.eqb_eq in Hk. by apply Huniq.
  - apply (find_None_elem _ _ e) in E; [|done].
    cbv beta in E. rewrite Z.eqb_refl in E. by destruct e.
Qed.

End dedup_facts.

Lemma find_Some_split {A} (p : A -> bool) (l : list A) (a : A) :
  List.find p l = Some a ->
  exists l1 l2, l = l1 ++ a :: l2 /\ p a = true
                /\ forall y, y ∈ l1 -> p y = false.
Proof.
  induction l as [|x l IH]; simpl; [done|].
  destruct (p x) eqn:Hx.
  - intros [= ->]. exists [], l. split_and!; [done..|].
    intros y Hy. by apply elem_of_nil in Hy.
  - intros (l1 & l2 & -> & Ha & Hl1)%IH. exists (x :: l1), l2.
    split_and!; [done..|]. intros y [->|Hy]%elem_of_cons; auto.
Qed.

(** C2. For the entries accumulated for one airport, the list that the
    loop sorts has each value in kHz at most once and in ascending order;
    it has an entry for exactly the values of the input; the entry of a
    value is the first entry of the input with this value and a type code
    that is not empty, and the bare number when no entry of this value has
    a type. The compacted list has these survivors, each in its compact
    form. *)
Theorem deduplicator_sorted_survivors (fs : list freq_entry) :
  well_typed fs ->
  NoDup (freq_key <$> freq_list fs)
  /\ StronglySorted Z.lt (freq_key <$> freq_list fs)
  /\ (forall k, k ∈ freq_key <$> freq_list fs <-> k ∈ freq_key <$> fs)
  /\ (forall e, e ∈ freq_list fs ->
        e = survivor fs (freq_key e)
        /\ ((has_type e = true
             /\ exists l1 l2, fs = l1 ++ e :: l2
                  /\ forall y, y ∈ l1 -> freq_key y = freq_key e ->
                               has_type y = false)
            \/ (e = Num (freq_key e)
                /\ forall y, y ∈ fs -> freq_key y = freq_key e ->
                             has_type y = false)))
  /\ (forall c, c ∈ deduplicate fs <->
        exists k, k ∈ freq_key <$> fs /\ c = compact (survivor fs k)).
Proof.
  intros Hwt. split_and!.
  - apply StronglySorted_lt_NoDup, freq_list_sorted.
  - apply freq_list_sorted.
  - apply elem_of_freq_list_keys.
  - intros e [He _]%elem_of_freq_list.
    rewrite first_dict_survivor in He by done. split; [done|].
    unfold survivor in He.
    destruct (List.find _ fs) as [e'|] eqn:E.
    + subst e'. left.
      apply find_Some_split in E as (l1 & l2 & -> & [_ Ht]%andb_true_iff & Hl1).
      split; [done|]. exists l1, l2. split; [done|].
      intros y Hy Hk. specialize (Hl1 y Hy). cbv beta in Hl1.
      apply Z.eqb_eq in Hk. by rewrite Hk in Hl1.
    + right. split; [done|]. intros y Hy Hk.
      apply (find_None_elem _ _ y) in E; [|done]. cbv beta in E.
      apply Z.eqb_eq in Hk. by rewrite Hk in E.
  - intros c. unfold deduplicate. rewrite freq_list_normal_form.
    rewrite <- (list_fmap_compose (first_dict fs) compact).
    rewrite list_elem_of_fmap. split.
    + intros (k & -> & Hk). exists k.
      rewrite elem_of_sorted, elem_of_remove_dups in Hk.
      unfold compose. by rewrite first_dict_survivor.
    + intros (k & Hk & ->). exists k.
      rewrite elem_of_sorted, elem_of_remove_dups.
      unfold compose. by rewrite first_dict_survivor.
Qed.

Lemma deduplicator_sorted_survivors_witness :
  well_typed [Num 119800; Dict 121900 "GROUND"; Dict 119800 "TOWER";
              Dict 119800 "ATIS"]
  /\ freq_list [Num 119800; Dict 121900 "GROUND"; Dict 119800 "TOWER";
                Dict 119800 "ATIS"]
     = [Dict 119800 "TOWER"; Dict 121900 "GROUND"]
  /\ NoDup [119800; 121900].
Proof.
  split_and!; [repeat constructor|reflexivity|].
  exact (proj1 (deduplicator_sorted_survivors
           [Num 119800; Dict 121900 "GROUND"; Dict 119800 "TOWER";
            Dict 119800 "ATIS"]
           ltac:(repeat constructor))).
Defined.

(** ** The type code table *)

Lemma TYPE_MAP_codes :
  Forall (fun kv => nonempty kv.2 = true
                    /\ (1 <= String.length kv.2 <= 2)%nat
                    /\ dict_get TYPE_MAP kv.2 = None) TYPE_MAP.
Proof. repeat constructor. Qed.

Lemma TYPE_MAP_get (t code : string) :
  dict_get TYPE_MAP t = Some code ->
  nonempty code = true /\ (1 <= String.length code <= 2)%nat
  /\ dict_get TYPE_MAP code = None.
Proof.
  intros Hin%dict_get_Some_elem.
  pose proof TYPE_MAP_codes as H. rewrite Forall_forall in H.
  exact (H _ Hin).
Qed.

Lemma nonempty_type_map_get (t : string) :
  nonempty t = true -> nonempty (type_map_get t) = true.
Proof.
  intros Ht. unfold type_map_get.
  destruct (dict_get TYPE_MAP t) as [code|] eqn:E; [|done].
  by apply TYPE_MAP_get in E as [? _].
Qed.

Lemma nonempty_map_type (t : string) : nonempty (map_type t) = nonempty t.
Proof.
  unfold map_type. destruct (nonempty t) eqn:Ht; [|done].
  by apply nonempty_type_map_get.
Qed.

Lemma type_map_get_idempotent (t : string) :
  type_map_get (type_map_get t) = type_map_get t.
Proof.
  unfold type_map_get at 2 3.
  destruct (dict_get TYPE_MAP t) as [code|] eqn:E; simpl.
  - apply TYPE_MAP_get in E as (_ & _ & Hnone).
    unfold type_map_get. by rewrite Hnone.
  - unfold type_map_get. by rewrite E.
Qed.

Lemma map_type_idempotent (t : string) : map_type (map_type t) = map_type t.
Proof.
  unfold map_type. destruct (nonempty t) eqn:Ht; [|by rewrite Ht].
  rewrite nonempty_type_map_get by done. apply type_map_get_idempotent.
Qed.

(** C4. The type code of a label is a function of the label alone. With
    the label stripped: a label of the table gives its code, of one or two
    characters; a label that is not in the table gives the stripped label
    itself; the empty label gives the empty string. The table is looked up
    with the exact text: a result that differs from the stripped label is
    the code of an entry of the table for this very text. *)
Theorem type_code_mapper_cases (label : string) :
  let t := strip label in
  (forall code, nonempty t = true -> dict_get TYPE_MAP t = Some code ->
     type_code label = code /\ (1 <= String.length code <= 2)%nat)
  /\ (nonempty t = true -> dict_get TYPE_MAP t = None -> type_code label = t)
  /\ (nonempty t = false -> type_code label = EmptyString)
  /\ (type_code label <> t -> (t, type_code label) ∈ TYPE_MAP)
  /\ Spec.type_code_mapper label = type_code label
  /\ (forall k, compact (make_entry k t) =
        if nonempty (type_code label) then CPair k (type_code label)
        else CNum k)
  /\ type_code "TOWER" = "T"%string
  /\ type_code "XYZ" = "XYZ"%string
  /\ type_code "" = ""%string
  /\ type_code "tower" = "tower"%string.
Proof.
  intros t. unfold type_code, Spec.type_code_mapper. fold t. clearbody t.
  split_and!; try reflexivity.
  - intros code Ht E. unfold map_type, type_map_get. rewrite Ht, E.
    split; [done|]. by apply TYPE_MAP_get in E as (_ & ? & _).
  - intros Ht E. unfold map_type, type_map_get. by rewrite Ht, E.
  - intros Ht. unfold map_type. rewrite Ht. by destruct t.
  - unfold map_type, type_map_get. destruct (nonempty t); [|done].
    destruct (dict_get TYPE_MAP t) as [code|] eqn:E; [|done].
    intros _. by apply dict_get_Some_elem.
  - unfold map_type, type_map_get.
    destruct (nonempty t) eqn:Ht; [by destruct (dict_get TYPE_MAP t)|].
    by destruct t.
  - intros k. rewrite nonempty_map_type. unfold make_entry.
    by destruct (nonempty t) eqn:Ht.
Qed.

Lemma type_code_mapper_cases_witness :
  type_code " TOWER " = "T"%string /\ (1 <= String.length "T" <= 2)%nat.
Proof.
  exact (proj1 (type_code_mapper_cases " TOWER ") "T"%string eq_refl eq_refl).
Defined.

(** ** Mapping before or after the removal of duplicates *)

Section refinement_facts.

Lemma well_typed_make_entry (obs : list (Z * string)) :
  well_typed (observed_entry <$> obs).
Proof.
  apply Forall_fmap, Forall_forall. intros [k label] _.
  unfold compose, observed_entry, make_entry. cbn [fst snd].
  destruct (nonempty (strip label)) eqn:E; [|done].
  cbn [is_dict has_type]. by rewrite E.
Qed.

Lemma spec_typed_entry (o : Z * string) :
  Spec.typed (Spec.observed_entry o) = is_dict (observed_entry o).
Proof.
  destruct o as [k label].
  unfold Spec.typed, Spec.observed_entry, observed_entry, Spec.entry.
  cbn [Spec.typeCode fst snd].
  unfold Spec.type_code_mapper, make_entry.
  destruct (nonempty (strip label)) eqn:E; [|done]. cbn [is_dict].
  destruct (dict_get TYPE_MAP (strip label)) as [code|] eqn:Ec; [|done].
  by apply TYPE_MAP_get in Ec as [? _].
Qed.

Lemma spec_kilohertz_entry (o : Z * string) :
  Spec.kilohertz (Spec.observed_entry o) = freq_key (observed_entry o).
Proof.
  destruct o as [k label]. unfold observed_entry, Spec.observed_entry, make_entry, Spec.entry.
  cbn [Spec.kilohertz fst snd]. by destruct (nonempty (strip label)).
Qed.

Lemma spec_serialize_entry (o : Z * string) :
  Spec.serialize (Spec.observed_entry o) = compact (observed_entry o).
Proof.
  unfold Spec.serialize. rewrite spec_typed_entry, spec_kilohertz_entry.
  destruct o as [k label]. unfold Spec.observed_entry, observed_entry, Spec.entry.
  cbn [Spec.typeCode fst snd].
  unfold Spec.type_code_mapper, make_entry, map_type, type_map_get.
  destruct (nonempty (strip label)) eqn:E; cbn [is_dict compact freq_key];
    [|done].
  unfold map_type, type_map_get. rewrite E.
  by destruct (dict_get TYPE_MAP (strip label)).
Qed.

Lemma spec_survivor_first_dict (obs : list (Z * string)) (k : Z) :
  Spec.serialize (Spec.survivor (Spec.observed_entry <$> obs) k)
  = compact (first_dict (observed_entry <$> obs) k).
Proof.
  unfold Spec.survivor, first_dict.
  induction obs as [|o obs IH]; [done|].
  rewrite !fmap_cons. cbn [List.find].
  rewrite spec_typed_entry, spec_kilohertz_entry.
  destruct ((freq_key (observed_entry o) =? k) && is_dict (observed_entry o)); [|done].
  apply spec_serialize_entry.
Qed.

(** The frequencies of one airport from its observations: the type code
    may be mapped before the removal of duplicates or after it. *)
Lemma spec_frequencies_deduplicate (obs : list (Z * string)) :
  Spec.frequencies obs
  = deduplicate (observed_entry <$> obs).
Proof.
  unfold Spec.frequencies, Spec.deduplicator, deduplicate.
  rewrite freq_list_normal_form.
  replace (Spec.kilohertz <$> (Spec.observed_entry <$> obs))
    with (freq_key <$> (observed_entry <$> obs)).
  2:{ rewrite <- (list_fmap_compose observed_entry freq_key).
      rewrite <- (list_fmap_compose Spec.observed_entry Spec.kilohertz).
      apply list_fmap_ext. intros _ o _. symmetry. apply spec_kilohertz_entry. }
  rewrite <- (list_fmap_compose (Spec.survivor _) Spec.serialize).
  rewrite <- (list_fmap_compose (first_dict _) compact).
  apply list_fmap_ext. intros _ k _. apply spec_survivor_first_dict.
Qed.

End refinement_facts.

(** ** Applying the step to its own output *)

Lemma compact_reread_compact (e : freq_entry) :
  compact (reread (compact e)) = compact e.
Proof. destruct e as [k|k t]; simpl; [done|]. by rewrite map_type_idempotent. Qed.

Lemma freq_key_reread_compact (e : freq_entry) :
  freq_key (reread (compact e)) = freq_key e.
Proof. by destruct e. Qed.

Lemma deduplicate_reread (fs : list freq_entry) :
  deduplicate (reread <$> deduplicate fs) = deduplicate fs.
Proof.
  unfold deduplicate. rewrite freq_list_fixed.
  - rewrite <- (list_fmap_compose compact reread).
    rewrite <- (list_fmap_compose (reread ∘ compact) compact).
    apply list_fmap_ext. intros _ e _. apply compact_reread_compact.
  - rewrite <- (list_fmap_compose compact reread).
    rewrite <- (list_fmap_compose (reread ∘ compact) freq_key).
    rewrite (list_fmap_ext _ freq_key)
      by (intros; apply freq_key_reread_compact).
    apply freq_list_sorted.
Qed.

Lemma py_dedup_entries (fs : list freq_entry) (d : list (Z * freq_entry)) :
  for_each py_dedup_step (py_of_entry <$> fs) d = Ok (fold_left dedup_step fs d).
Proof.
  revert d. induction fs as [|e fs IH]; intros d; [done|].
  rewrite fmap_cons. cbn [for_each fold_left].
  destruct e; simpl; apply IH.
Qed.

Lemma py_deduplicate_entries (fs : list freq_entry) :
  py_deduplicate (py_of_entry <$> fs) = Ok (py_of_compact <$> deduplicate fs).
Proof.
  unfold py_deduplicate. rewrite py_dedup_entries. simpl.
  unfold deduplicate, freq_list, build_freq_dict.
  by rewrite <- (list_fmap_compose compact py_of_compact).
Qed.

Lemma py_dedup_list (xs : list pyval) (d : list (Z * freq_entry)) :
  (exists k code, PyList k code ∈ xs) ->
  for_each py_dedup_step xs d = Raise TypeError.
Proof.
  intros (k & code & Hin). revert d.
  induction xs as [|x xs IH]; intros d; [by apply elem_of_nil in Hin|].
  apply elem_of_cons in Hin as [<-|Hin]; [done|].
  cbn [for_each]. destruct x; simpl; auto.
Qed.

(** C7, as the code has it. Run again on its own output, where each pair
    [[kHz, code]] is read back as the dictionary of this frequency and
    type, the step gives the same output. Run on the pairs themselves it
    raises [TypeError], and it leaves an output without pairs as it is. *)
Theorem deduplicate_twice (fs : list freq_entry) :
  deduplicate (reread <$> deduplicate fs) = deduplicate fs
  /\ py_deduplicate (py_of_entry <$> fs) = Ok (py_of_compact <$> deduplicate fs)
  /\ py_deduplicate (py_of_compact <$> deduplicate fs) =
       if decide (Exists (fun e => is_dict e = true) (freq_list fs))
       then Raise TypeError
       else Ok (py_of_compact <$> deduplicate fs).
Proof.
  split_and!; [apply deduplicate_reread|apply py_deduplicate_entries|].
  destruct (decide _) as [Hex|Hnex].
  - unfold py_deduplicate. rewrite py_dedup_list; [done|].
    apply Exists_exists in Hex as ([k|k t] & Hin & Hd); [done|].
    exists k, (map_type t). unfold deduplicate.
    rewrite <- (list_fmap_compose compact py_of_compact).
    apply list_elem_of_fmap. by exists (Dict k t).
  - assert (Hnum : py_of_compact <$> deduplicate fs
                   = py_of_entry <$> (reread <$> deduplicate fs)).
    { unfold deduplicate.
      rewrite <- (list_fmap_compose compact reread).
      rewrite <- (list_fmap_compose compact py_of_compact).
      rewrite <- (list_fmap_compose (reread ∘ compact) py_of_entry).
      apply list_fmap_ext.
      intros i [k|k t] Hi; [reflexivity|]. exfalso. apply Hnex.
      apply Exists_exists. exists (Dict k t).
      split; [by eapply list_elem_of_lookup_2|done]. }
    rewrite Hnum at 1. rewrite py_deduplicate_entries.
    by rewrite deduplicate_reread.
Qed.

(** The step is not idempotent on the values themselves: the output for
    one typed entry is a pair, on which the step raises. *)
Lemma deduplicate_twice_counterexample :
  exists out, py_deduplicate [PyDict 119800 "TOWER"] = Ok out
              /\ py_deduplicate out <> Ok out.
Proof. exists [PyList 119800 "T"]. split; [reflexivity|discriminate]. Qed.

(** ** The two loops over the rows *)

Section pipeline_facts.

Variable float_of_string : string -> option float.

Local Abbreviation row := (gmap string (option string)).
Local Abbreviation airports_dict := (list (string * airport freq_entry)).

Implicit Types (d : airports_dict) (r : row) (rows : list row) (icao : string).

Lemma omap_cons_eq {A B} (f : A -> option B) (x : A) (xs : list A) :
  omap f (x :: xs) =
  match f x with
  | Some y => y :: omap f xs
  | None => omap f xs
  end.
Proof. reflexivity. Qed.

Lemma omap_singleton_eq {A B} (f : A -> option B) (x : A) :
  omap f [x] =
  match f x with
  | Some y => [y]
  | None => []
  end.
Proof. reflexivity. Qed.

Lemma airport_step_coords d r :
  airport_step float_of_string d r =
  match coords_of_row float_of_string r with
  | Some (k, l) => dict_set d k (Airport k l [])
  | None => d
  end.
Proof.
  unfold airport_step, coords_of_row.
  destruct (row_get r "ICAO") as [icao|], (row_get r "lat") as [lat|],
    (row_get r "lon") as [lon|]; try done.
  destruct (nonempty icao && nonempty lat && nonempty lon); [|done].
  by destruct (float_of_string lat), (float_of_string lon).
Qed.

(** The dictionary of airports after the first loop: one record per code,
    with the coordinates of the last valid row of this code and no
    frequency yet. *)
Lemma build_airports_spec rows :
  NoDup (dict_keys (build_airports float_of_string rows))
  /\ forall icao,
       dict_get (build_airports float_of_string rows) icao =
       (fun l => Airport icao l []) <$> last_coords float_of_string rows icao.
Proof.
  unfold build_airports, last_coords.
  induction rows as [|r rows [IHnd IH]] using rev_ind.
  { split; [constructor|done]. }
  rewrite fold_left_app. cbn [fold_left].
  set (d := fold_left (airport_step float_of_string) rows []) in *.
  rewrite airport_step_coords. split.
  - destruct (coords_of_row float_of_string r) as [[k l]|]; [|done].
    by apply dict_keys_set_NoDup.
  - intros icao. rewrite omap_app, omap_singleton_eq.
    destruct (coords_of_row float_of_string r) as [[k l]|].
    + rewrite dict_get_set. destruct (decide (icao = k)) as [->|Hne].
      * rewrite decide_True by done. by rewrite last_snoc.
      * rewrite decide_False by done. by rewrite app_nil_r.
    + by rewrite app_nil_r.
Qed.

Lemma build_airports_elem rows icao a :
  (icao, a) ∈ build_airports float_of_string rows ->
  exists l, last_coords float_of_string rows icao = Some l
            /\ a = Airport icao l [].
Proof.
  destruct (build_airports_spec rows) as [Hnd Hget].
  intros Hin%(dict_get_elem _ _ _ Hnd). rewrite Hget in Hin.
  destruct (last_coords float_of_string rows icao) as [l|]; [|done].
  exists l. split; [done|]. by injection Hin.
Qed.

(** What one frequency row does to the dictionary. *)
Lemma freq_step_observation d r :
  freq_step float_of_string d r =
  match row_get_default r "type" "" with
  | None => Raise AttributeError
  | Some _ =>
      Ok match observation float_of_string r with
         | Some (k, o) =>
             match dict_get d k with
             | Some a => dict_set d k (append_freq a (observed_entry o))
             | None => d
             end
         | None => d
         end
  end.
Proof.
  unfold freq_step, attach, observation.
  destruct (row_get_default r "type" "") as [label|]; [|done]. f_equal.
  destruct (row_get r "airport") as [icao|], (row_get r "frequency") as [raw|];
    try done.
  - destruct (nonempty raw); [|by destruct (dict_get d icao)].
    destruct (float_of_string raw) as [v|]; [|by destruct (dict_get d icao)].
    destruct (validate v) as [khz|]; [|by destruct (dict_get d icao)].
    done.
Qed.

Lemma extend_nil d : extend (fun _ => []) d = d.
Proof.
  unfold extend. rewrite <- (list_fmap_id d) at 2. apply list_fmap_ext.
  intros _ [k [c l f]] _. simpl. by rewrite app_nil_r.
Qed.

Lemma dict_keys_extend fs d : dict_keys (extend fs d) = dict_keys d.
Proof.
  unfold dict_keys, extend. rewrite <- list_fmap_compose.
  by apply list_fmap_ext.
Qed.

Lemma dict_set_append d icao a e :
  NoDup (dict_keys d) -> dict_get d icao = Some a ->
  dict_set d icao (append_freq a e)
  = extend (fun k => if decide (k = icao) then [e] else []) d.
Proof.
  unfold extend. induction d as [|[k0 a0] d IH]; [done|].
  rewrite dict_keys_cons, NoDup_cons. intros [Hk0 Hnd].
  cbn [dict_get dict_set]. rewrite fmap_cons. cbn [fst snd].
  destruct (decide (icao = k0)) as [->|Hne].
  - intros [= ->]. rewrite decide_True by done. f_equal.
    rewrite <- (list_fmap_id d) at 1. apply list_fmap_ext.
    intros i [k [c l f]] Hi. simpl.
    rewrite decide_False, app_nil_r; [done|]. intros ->. apply Hk0.
    apply list_elem_of_fmap. exists (k0, Airport c l f).
    split; [done|]. by eapply list_elem_of_lookup_2.
  - intros Hget. rewrite decide_False by done. rewrite IH by done.
    destruct a0 as [c l f]. simpl. by rewrite app_nil_r.
Qed.

Lemma extend_extend fs1 fs2 d :
  extend fs2 (extend fs1 d) = extend (fun k => fs1 k ++ fs2 k) d.
Proof.
  unfold extend. rewrite <- list_fmap_compose. apply list_fmap_ext.
  intros _ [k [c l f]] _. simpl. by rewrite app_assoc.
Qed.

Lemma extend_ext fs1 fs2 d :
  (forall k, k ∈ dict_keys d -> fs1 k = fs2 k) -> extend fs1 d = extend fs2 d.
Proof.
  intros Hfs. unfold extend. apply list_fmap_ext. intros i [k a] Hi. simpl.
  rewrite Hfs; [done|]. apply list_elem_of_fmap. exists (k, a).
  split; [done|]. by eapply list_elem_of_lookup_2.
Qed.

Lemma entries_for_cons icao r rows :
  entries_for float_of_string icao (r :: rows) =
  match observation float_of_string r with
  | Some (k, o) => if decide (k = icao) then [observed_entry o] else []
  | None => []
  end ++ entries_for float_of_string icao rows.
Proof.
  unfold entries_for, observations_for. rewrite omap_cons_eq.
  destruct (observation float_of_string r) as [[k o]|]; [|done].
  by destruct (decide (k = icao)).
Qed.

(** The second loop raises [AttributeError] at the first row whose type is
    [None]; otherwise it appends, to each airport, the entries of its
    observations in row order. *)
Lemma freq_loop_spec rows d :
  NoDup (dict_keys d) ->
  for_each (freq_step float_of_string) rows d =
  if decide (Forall (fun r => row_get_default r "type" "" <> None) rows)
  then Ok (extend (fun icao => entries_for float_of_string icao rows) d)
  else Raise AttributeError.
Proof.
  revert d. induction rows as [|r rows IH]; intros d Hnd.
  - rewrite decide_True by constructor. cbn [for_each].
    f_equal. symmetry. apply extend_nil.
  - cbn [for_each]. rewrite freq_step_observation.
    destruct (row_get_default r "type" "") as [label|] eqn:Ety; last first.
    { rewrite decide_False; [done|]. intros Hall.
      apply Forall_cons in Hall as [Hr _]. done. }
    cbn [bind].
    set (d1 := match observation float_of_string r with
               | Some (k, o) => _
               | None => d
               end).
    assert (Hd1 : d1 = extend (fun icao =>
                     match observation float_of_string r with
                     | Some (k, o) =>
                         if decide (k = icao) then [observed_entry o] else []
                     | None => []
                     end) d).
    { unfold d1. destruct (observation float_of_string r) as [[k o]|];
        [|by rewrite extend_nil].
      destruct (dict_get d k) as [a|] eqn:Eg.
      - rewrite dict_set_append by done. apply extend_ext. intros k' _.
        destruct (decide (k' = k)) as [->|?]; [by rewrite decide_True|].
        by rewrite decide_False.
      - rewrite <- (extend_nil d) at 1. apply extend_ext. intros k' Hk'.
        rewrite decide_False; [done|]. intros ->.
        by apply dict_get_None in Eg. }
    rewrite IH by (rewrite Hd1, dict_keys_extend; done).
    destruct (decide (Forall _ rows)) as [Hall|Hnall].
    + rewrite decide_True by (constructor; [by rewrite Ety|done]).
      f_equal. rewrite Hd1, extend_extend. apply extend_ext. intros k _.
      by rewrite entries_for_cons.
    + rewrite decide_False; [done|]. intros Hall.
      by apply Forall_cons in Hall as [_ ?].
Qed.

(** The entries accumulated for an airport are those for which the result
    on the removal of duplicates is stated. *)
Lemma entries_for_well_typed icao rows :
  well_typed (entries_for float_of_string icao rows).
Proof. apply well_typed_make_entry. Qed.

Lemma deduplicate_nil (fs : list freq_entry) : deduplicate fs = [] <-> fs = [].
Proof.
  split; [|by intros ->]. unfold deduplicate. intros Hnil%fmap_nil_inv.
  destruct fs as [|e fs]; [done|]. exfalso.
  assert (Hin : freq_key e ∈ freq_key <$> freq_list (e :: fs)).
  { apply elem_of_freq_list_keys. rewrite fmap_cons. left. }
  rewrite Hnil in Hin. by apply elem_of_nil in Hin.
Qed.

Lemma run_spec airport_rows freq_rows :
  run float_of_string airport_rows freq_rows =
  if decide (Forall (fun r => row_get_default r "type" "" <> None) freq_rows)
  then Wrote (written float_of_string airport_rows freq_rows)
         (if existsb (fun a => binds_type_map (a_f a))
               (dict_values
                  (extend (fun icao => entries_for float_of_string icao freq_rows)
                     (build_airports float_of_string airport_rows)))
          then Ok (length TYPE_MAP) else Raise NameError)
  else Aborted AttributeError.
Proof.
  unfold run. rewrite freq_loop_spec by apply build_airports_spec.
  by destruct (decide _).
Qed.

Lemma run_Wrote airport_rows freq_rows out rep :
  run float_of_string airport_rows freq_rows = Wrote out rep ->
  out = written float_of_string airport_rows freq_rows.
Proof.
  rewrite run_spec. destruct (decide _); [|done]. by intros [= <- _].
Qed.

Lemma elem_of_written airport_rows freq_rows o :
  o ∈ written float_of_string airport_rows freq_rows <->
  exists l, last_coords float_of_string airport_rows (a_c o) = Some l
    /\ entries_for float_of_string (a_c o) freq_rows <> []
    /\ o = Airport (a_c o) l
             (deduplicate (entries_for float_of_string (a_c o) freq_rows)).
Proof.
  unfold written, extend, dict_values.
  rewrite list_elem_of_filter, list_elem_of_fmap.
  setoid_rewrite list_elem_of_fmap. setoid_rewrite list_elem_of_fmap.
  split.
  - intros (Hf & a & -> & [k' a'] & -> & [k a0] & [= -> ->] & Hin).
    apply build_airports_elem in Hin as (l & Hl & ->).
    cbn [finalize a_c a_l a_f fst snd app] in *.
    exists l. split_and!; [done| |done].
    intros Hnil. apply Hf. cbn [finalize a_c a_l a_f fst snd app].
    by rewrite Hnil.
  - intros (l & Hl & Hne & Ho).
    destruct (build_airports_spec airport_rows) as [Hnd Hget].
    specialize (Hget (a_c o)). rewrite Hl in Hget.
    apply dict_get_Some_elem in Hget.
    split.
    + unfold has_freqs. rewrite Ho. cbn [a_f]. by rewrite deduplicate_nil.
    + eexists. split; [|eexists; split; [|eexists; split; [|exact Hget]]];
        [|reflexivity|reflexivity]. done.
Qed.

Lemma written_codes_sublist airport_rows freq_rows :
  (fun o => (a_c o, a_l o)) <$> written float_of_string airport_rows freq_rows
  `sublist_of` (fun a => (a_c a, a_l a))
                 <$> dict_values (build_airports float_of_string airport_rows).
Proof.
  unfold written, extend, dict_values.
  etrans; [apply fmap_sublist, sublist_filter|].
  rewrite <- (list_fmap_compose finalize). rewrite <- !(list_fmap_compose snd).
  rewrite <- (list_fmap_compose _ (_ ∘ snd)). done.
Qed.

Lemma build_airports_codes airport_rows :
  a_c <$> dict_values (build_airports float_of_string airport_rows)
  = dict_keys (build_airports float_of_string airport_rows).
Proof.
  unfold dict_values, dict_keys. rewrite <- list_fmap_compose.
  apply list_fmap_ext. intros i [k a] Hi.
  apply list_elem_of_lookup_2, build_airports_elem in Hi as (l & _ & ->). done.
Qed.

Lemma written_codes_NoDup airport_rows freq_rows :
  NoDup (a_c <$> written float_of_string airport_rows freq_rows).
Proof.
  pose proof (written_codes_sublist airport_rows freq_rows) as Hsub.
  apply (fmap_sublist fst) in Hsub.
  rewrite <- (list_fmap_compose _ fst) in Hsub.
  rewrite <- (list_fmap_compose _ fst) in Hsub.
  eapply sublist_NoDup; [|exact Hsub].
  change (NoDup (a_c <$> dict_values
                   (build_airports float_of_string airport_rows))).
  rewrite build_airports_codes. apply build_airports_spec.
Qed.

End pipeline_facts.

(** ** The properties of a run *)

Section run_facts.

Variable float_of_string : string -> option float.

Local Abbreviation row := (gmap string (option string)).


(** C9. When several valid airport rows have the same code, the
    dictionary of airports keeps one record for this code, with the
    coordinates of the last of these rows. In the list written the
    frequencies of this record come from all the observations of the code,
    and no two records of the list have the same code. *)
Theorem one_record_per_code
  (airport_rows freq_rows : list row) (out : list (airport compact_entry))
  (report : result nat) :
  run float_of_string airport_rows freq_rows = Wrote out report ->
  NoDup (dict_keys (build_airports float_of_string airport_rows))
  /\ (forall icao,
        dict_get (build_airports float_of_string airport_rows) icao
        = (fun l => Airport icao l [])
            <$> last_coords float_of_string airport_rows icao)
  /\ NoDup (a_c <$> out)
  /\ (forall o, o ∈ out ->
        last_coords float_of_string airport_rows (a_c o) = Some (a_l o)
        /\ a_f o = deduplicate (entries_for float_of_string (a_c o) freq_rows))
  /\ (forall o1 o2, o1 ∈ out -> o2 ∈ out -> a_c o1 = a_c o2 -> o1 = o2).
Proof.
  intros ->%run_Wrote. split_and!.
  - apply build_airports_spec.
  - apply build_airports_spec.
  - apply written_codes_NoDup.
  - intros o (l & Hl & _ & ->)%elem_of_written. done.
  - intros o1 o2 (l1 & Hl1 & _ & ->)%elem_of_written
      (l2 & Hl2 & _ & ->)%elem_of_written. cbn [a_c]. intros Hc.
    rewrite Hc in Hl1 |- *. congruence.
Qed.

(** C10. The code and the coordinates of a record are those it was
    created with: the frequency loop and the compaction change the
    frequencies only, and the records written are, in the same order,
    records of the first loop. *)
Theorem code_and_coordinates_unchanged
  (airport_rows freq_rows : list row) (out : list (airport compact_entry))
  (report : result nat) :
  run float_of_string airport_rows freq_rows = Wrote out report ->
  (fun o => (a_c o, a_l o)) <$> out
    `sublist_of` (fun a => (a_c a, a_l a))
                   <$> dict_values (build_airports float_of_string airport_rows)
  /\ (forall o, o ∈ out ->
        exists a, dict_get (build_airports float_of_string airport_rows) (a_c o)
                  = Some a
                  /\ a_c a = a_c o /\ a_l a = a_l o /\ a_f a = [])
  /\ (forall a e, a_c (append_freq a e) = a_c a /\ a_l (append_freq a e) = a_l a)
  /\ (forall a, a_c (finalize a) = a_c a /\ a_l (finalize a) = a_l a).
Proof.
  intros ->%run_Wrote. split_and!; [apply written_codes_sublist| |done..].
  intros o (l & Hl & _ & ->)%elem_of_written. cbn [a_c a_l] in *.
  destruct (build_airports_spec float_of_string airport_rows) as [_ Hget].
  eexists. rewrite Hget, Hl. done.
Qed.

(** C6. Mapping the type code of each observation before the removal of
    duplicates, as the components are ordered in the specification, gives
    the frequencies that the code computes, which removes the duplicates
    first and maps the types when it compacts: for any observations of one
    airport, and for every airport of the list that a run writes. *)
Theorem mapper_before_deduplicator
  (airport_rows freq_rows : list row) (out : list (airport compact_entry))
  (report : result nat) :
  run float_of_string airport_rows freq_rows = Wrote out report ->
  (forall obs, Spec.frequencies obs = deduplicate (observed_entry <$> obs))
  /\ (forall o, o ∈ out ->
        a_f o = Spec.frequencies
                  (observations_for float_of_string (a_c o) freq_rows)).
Proof.
  intros ->%run_Wrote. split; [apply spec_frequencies_deduplicate|].
  intros o (l & _ & _ & ->)%elem_of_written. cbn [a_f a_c].
  by rewrite spec_frequencies_deduplicate.
Qed.

(** A row that does nothing is skipped: the run ends as it does without
    the row. For an airport row this is a row without the three fields or
    without coordinates that parse. *)
Lemma defective_airport_row_skipped
  (rows1 rows2 : list row) (r : row) (freq_rows : list row) :
  coords_of_row float_of_string r = None ->
  run float_of_string (rows1 ++ r :: rows2) freq_rows
  = run float_of_string (rows1 ++ rows2) freq_rows.
Proof.
  intros Hr. unfold run, build_airports.
  rewrite !fold_left_app. cbn [fold_left].
  by rewrite airport_step_coords, Hr.
Qed.

(** For a frequency row whose type is not [None], this is a row without
    an accepted frequency or for a code that no airport has. *)
Lemma defective_frequency_row_skipped
  (airport_rows : list row) (rows1 rows2 : list row) (r : row) :
  row_get_default r "type" "" <> None ->
  match observation float_of_string r with
  | Some (icao, _) => last_coords float_of_string airport_rows icao = None
  | None => True
  end ->
  run float_of_string airport_rows (rows1 ++ r :: rows2)
  = run float_of_string airport_rows (rows1 ++ rows2).
Proof.
  intros Hty Hobs. rewrite !run_spec.
  assert (Hent : forall icao,
            icao ∈ dict_keys (build_airports float_of_string airport_rows) ->
            entries_for float_of_string icao (rows1 ++ r :: rows2)
            = entries_for float_of_string icao (rows1 ++ rows2)).
  { intros icao Hin. unfold entries_for, observations_for.
    rewrite !omap_app, omap_cons_eq.
    destruct (observation float_of_string r) as [[k o]|]; [|done].
    destruct (decide (k = icao)) as [->|]; [|done]. exfalso.
    destruct (build_airports_spec float_of_string airport_rows) as [_ Hget].
    specialize (Hget icao). rewrite Hobs in Hget.
    by apply dict_get_None in Hget. }
  unfold written. rewrite (extend_ext _ _ _ Hent).
  destruct (decide (Forall _ (rows1 ++ r :: rows2))) as [Hall|Hnall].
  - rewrite decide_True; [done|].
    apply Forall_app in Hall as [H1 [_ H2]%Forall_cons]. by apply Forall_app.
  - rewrite decide_False; [done|]. intros [H1 H2]%Forall_app. apply Hnall.
    apply Forall_app. split; [done|]. by constructor.
Qed.

Lemma klax_row_coords la lo :
  float_of_string "33.9425" = Some la ->
  float_of_string "-118.408" = Some lo ->
  coords_of_row float_of_string klax_row
  = Some ("KLAX"%string, (py_round_digits la 3, py_round_digits lo 3)).
Proof.
  intros Hla Hlo. unfold coords_of_row.
  change (row_get klax_row "ICAO") with (Some "KLAX"%string).
  change (row_get klax_row "lat") with (Some "33.9425"%string).
  change (row_get klax_row "lon") with (Some "-118.408"%string).
  cbn [nonempty andb]. by rewrite Hla, Hlo.
Qed.

Lemma klax_tower_row_observation v khz :
  float_of_string "119.8" = Some v -> validate v = Some khz ->
  observation float_of_string klax_tower_row
  = Some ("KLAX"%string, (khz, "TOWER"%string)).
Proof.
  intros Hv Hk. unfold observation.
  change (row_get klax_tower_row "airport") with (Some "KLAX"%string).
  change (row_get klax_tower_row "frequency") with (Some "119.8"%string).
  change (row_get_default klax_tower_row "type" "") with (Some "TOWER"%string).
  cbn [nonempty]. by rewrite Hv, Hk.
Qed.

Lemma klax_blank_row_observation v khz :
  float_of_string "119.8" = Some v -> validate v = Some khz ->
  observation float_of_string klax_blank_row
  = Some ("KLAX"%string, (khz, ""%string)).
Proof.
  intros Hv Hk. unfold observation.
  change (row_get klax_blank_row "airport") with (Some "KLAX"%string).
  change (row_get klax_blank_row "frequency") with (Some "119.8"%string).
  change (row_get_default klax_blank_row "type" "") with (Some ""%string).
  cbn [nonempty]. by rewrite Hv, Hk.
Qed.

(** C3. For the airport row of KLAX with the latitude 33.9425 and the
    longitude -118.408, and the two frequency rows of KLAX at 119.8, one
    of type TOWER and one with an empty type, the run writes exactly one
    airport record, with the code KLAX, the location [33.943, -118.408]
    and the single frequency [119800, "T"]. The builtin [float] is only
    asked to return the nearest binary64 number on the three strings. *)
Theorem klax_scenario :
  float_of_string "33.9425" = Some (of_decimal false 339425 4) ->
  float_of_string "-118.408" = Some (of_decimal true 118408 3) ->
  float_of_string "119.8" = Some (of_decimal false 1198 1) ->
  run float_of_string [klax_row] [klax_tower_row; klax_blank_row]
  = Wrote [Airport "KLAX"
             (of_decimal false 33943 3, of_decimal true 118408 3)
             [CPair 119800 "T"]]
          (Ok 34%nat).
Proof.
  intros Hla Hlo Hf.
  assert (Hk : validate (of_decimal false 1198 1) = Some 119800)
    by (vm_compute; reflexivity).
  rewrite run_spec.
  rewrite decide_True by (repeat constructor; discriminate).
  unfold written, build_airports. cbn [fold_left].
  rewrite airport_step_coords, (klax_row_coords _ _ Hla Hlo).
  cbn [dict_set]. unfold extend. rewrite !fmap_cons, !fmap_nil.
  cbn [fst snd a_c a_l a_f app].
  unfold entries_for, observations_for.
  rewrite !omap_cons_eq.
  rewrite (klax_tower_row_observation _ _ Hf Hk).
  rewrite (klax_blank_row_observation _ _ Hf Hk).
  rewrite decide_True by done.
  vm_compute. reflexivity.
Qed.

(** C8, at the input where the code departs from it: a short line of the
    frequency table, with the airport code alone, has no frequency; the
    run does not skip it but ends with [AttributeError], whatever the other
    rows are, while without the line it writes its list. *)
Theorem short_frequency_row_aborts
  (airport_rows rows1 rows2 : list row) :
  Forall (fun r => row_get_default r "type" "" <> None) (rows1 ++ rows2) ->
  run float_of_string airport_rows (rows1 ++ klax_short_row :: rows2)
  = Aborted AttributeError
  /\ exists out report,
       run float_of_string airport_rows (rows1 ++ rows2) = Wrote out report.
Proof.
  intros Hall. rewrite !run_spec. split.
  - rewrite decide_False; [done|].
    intros [_ [Hr _]%Forall_cons]%Forall_app. by apply Hr.
  - rewrite decide_True by done. by eexists _, _.
Qed.

End run_facts.

(** ** The scenario, run *)

Lemma scenario_computed :
  run float_of_decimal_string [klax_row] [klax_tower_row; klax_blank_row]
  = Wrote [klax_record] (Ok 34%nat).
Proof. vm_compute. reflexivity. Qed.

(** A run with two airports: the code KLAX has two valid airport rows,
    the second one after the row of KJFK, and the frequency rows of the two
    airports alternate. *)
Lemma two_airports_computed :
  run float_of_decimal_string [klax_earlier_row; kjfk_row; klax_row]
    [klax_tower_row; kjfk_ground_row; klax_blank_row]
  = Wrote [klax_record; kjfk_record] (Ok 34%nat).
Proof. vm_compute. reflexivity. Qed.

Lemma klax_scenario_witness :
  float_of_decimal_string "33.9425" = Some (of_decimal false 339425 4)
  /\ float_of_decimal_string "-118.408" = Some (of_decimal true 118408 3)
  /\ float_of_decimal_string "119.8" = Some (of_decimal false 1198 1)
  /\ run float_of_decimal_string [klax_row] [klax_tower_row; klax_blank_row]
     = Wrote [klax_record] (Ok 34%nat).
Proof.
  split_and!; [vm_compute; reflexivity..|].
  apply (klax_scenario float_of_decimal_string); vm_compute; reflexivity.
Defined.


Lemma one_record_per_code_witness :
  run float_of_decimal_string [klax_earlier_row; kjfk_row; klax_row]
    [klax_tower_row; kjfk_ground_row; klax_blank_row]
  = Wrote [klax_record; kjfk_record] (Ok 34%nat)
  /\ last_coords float_of_decimal_string
       [klax_earlier_row; kjfk_row; klax_row] "KLAX"
     = Some (of_decimal false 33943 3, of_decimal true 118408 3)
  /\ NoDup (dict_keys (build_airports float_of_decimal_string
                         [klax_earlier_row; kjfk_row; klax_row]))
  /\ (forall icao,
        dict_get (build_airports float_of_decimal_string
                    [klax_earlier_row; kjfk_row; klax_row]) icao
        = (fun l => Airport icao l [])
            <$> last_coords float_of_decimal_string
                  [klax_earlier_row; kjfk_row; klax_row] icao)
  /\ NoDup (a_c <$> [klax_record; kjfk_record])
  /\ (forall o, o ∈ [klax_record; kjfk_record] ->
        last_coords float_of_decimal_string
          [klax_earlier_row; kjfk_row; klax_row] (a_c o) = Some (a_l o)
        /\ a_f o = deduplicate
                     (entries_for float_of_decimal_string (a_c o)
                        [klax_tower_row; kjfk_ground_row; klax_blank_row]))
  /\ (forall o1 o2, o1 ∈ [klax_record; kjfk_record] ->
        o2 ∈ [klax_record; kjfk_record] -> a_c o1 = a_c o2 -> o1 = o2).
Proof.
  split; [exact two_airports_computed|].
  split; [vm_compute; reflexivity|].
  exact (one_record_per_code float_of_decimal_string
           _ _ _ _ two_airports_computed).
Defined.

Lemma code_and_coordinates_unchanged_witness :
  run float_of_decimal_string [klax_row] [klax_tower_row; klax_blank_row]
  = Wrote [klax_record] (Ok 34%nat)
  /\ (fun o => (a_c o, a_l o)) <$> [klax_record]
       `sublist_of` (fun a => (a_c a, a_l a))
                      <$> dict_values
                            (build_airports float_of_decimal_string [klax_row]).
Proof.
  split; [exact scenario_computed|].
  exact (proj1 (code_and_coordinates_unchanged float_of_decimal_string
                  _ _ _ _ scenario_computed)).
Defined.

Lemma mapper_before_deduplicator_witness :
  run float_of_decimal_string [klax_row] [klax_tower_row; klax_blank_row]
  = Wrote [klax_record] (Ok 34%nat)
  /\ (forall o, o ∈ [klax_record] ->
        a_f o = Spec.frequencies
                  (observations_for float_of_decimal_string (a_c o)
                     [klax_tower_row; klax_blank_row])).
Proof.
  split; [exact scenario_computed|].
  exact (proj2 (mapper_before_deduplicator float_of_decimal_string
                  _ _ _ _ scenario_computed)).
Defined.

Lemma short_frequency_row_aborts_witness :
  Forall (fun r : gmap string (option string) =>
            row_get_default r "type" "" <> None) ([] ++ [])
  /\ run float_of_decimal_string [klax_row] [klax_short_row]
     = Aborted AttributeError.
Proof.
  split; [constructor|].
  exact (proj1 (short_frequency_row_aborts float_of_decimal_string
                  [klax_row] [] [] ltac:(constructor))).
Defined.

(** * Properties beyond the claims *)

Section run_extras.

Variable float_of_string : string -> option float.

Local Abbreviation row := (gmap string (option string)).

Lemma row_type_None (r : row) :
  row_get_default r "type" "" = None <-> r !! "type"%string = Some None.
Proof.
  unfold row_get_default. destruct (r !! "type"%string) as [[s|]|]; naive_solver.
Qed.

(** X1. The only exception that leaves the two loops is the
    [AttributeError] of [.strip()] on a type that is [None]: the run aborts
    exactly when some frequency row stores [None] under ["type"], whatever
    the airport rows and the other fields are, and otherwise it writes its
    list. *)
Theorem run_aborts_on_none_type_only (airport_rows freq_rows : list row) :
  (Exists (fun r => r !! "type"%string = Some None) freq_rows ->
   run float_of_string airport_rows freq_rows = Aborted AttributeError)
  /\ (Forall (fun r => r !! "type"%string <> Some None) freq_rows ->
      exists report,
        run float_of_string airport_rows freq_rows
        = Wrote (written float_of_string airport_rows freq_rows) report)
  /\ (forall e, run float_of_string airport_rows freq_rows = Aborted e ->
        e = AttributeError
        /\ Exists (fun r => r !! "type"%string = Some None) freq_rows).
Proof.
  rewrite run_spec.
  assert (Hiff : Forall (fun r : row => row_get_default r "type" "" <> None)
                   freq_rows
                 <-> Forall (fun r : row => r !! "type"%string <> Some None)
                       freq_rows).
  { apply Forall_proper; [|done]. intros r. by rewrite row_type_None. }
  split_and!.
  - intros Hex. rewrite decide_False; [done|]. rewrite Hiff.
    intros Hall. apply Exists_exists in Hex as (r & Hin & Hr).
    rewrite Forall_forall in Hall. by apply (Hall r Hin).
  - intros Hall. rewrite decide_True by (by apply Hiff). by eexists.
  - intros e. destruct (decide _) as [|Hn]; [done|]. intros [= <-].
    split; [done|]. rewrite Hiff in Hn.
    apply not_Forall_Exists in Hn; [|intros r; apply _].
    eapply Exists_impl; [exact Hn|]. intros r Hr. cbv beta in Hr.
    by destruct (decide (r !! "type"%string = Some None)).
Qed.

Lemma binds_type_map_pair (fs : list freq_entry) :
  well_typed fs ->
  binds_type_map fs = true <-> exists k c, CPair k c ∈ deduplicate fs.
Proof.
  intros Hwt. unfold binds_type_map, deduplicate.
  rewrite existsb_exists. setoid_rewrite <- list_elem_of_In.
  setoid_rewrite list_elem_of_fmap. split.
  - intros ([k|k t] & Hin & Hne); [done|].
    exists k, (map_type t), (Dict k t). done.
  - intros (k & c & [k'|k' t] & Hc & Hin); [done|].
    exists (Dict k' t). split; [done|].
    apply elem_of_freq_list in Hin as [He Hk]. cbn [freq_key] in He.
    unfold first_dict in He.
    destruct (List.find _ fs) as [e|] eqn:Hfind; [|done]. subst e.
    apply find_Some_elem in Hfind as [Hin _].
    unfold well_typed in Hwt. rewrite Forall_forall in Hwt.
    specialize (Hwt _ Hin). cbn [is_dict has_type] in Hwt. done.
Qed.

Lemma extended_airport (airport_rows freq_rows : list row)
  (a : airport freq_entry) :
  a ∈ dict_values
        (extend (fun icao => entries_for float_of_string icao freq_rows)
           (build_airports float_of_string airport_rows)) ->
  a_f a = entries_for float_of_string (a_c a) freq_rows.
Proof.
  unfold extend, dict_values. rewrite list_elem_of_fmap.
  setoid_rewrite list_elem_of_fmap.
  intros ([k' a'] & -> & [k a0] & [= -> ->] & Hin).
  apply build_airports_elem in Hin as (l & Hl & ->). done.
Qed.

(** X2. The last line prints [len(TYPE_MAP)], a name that is only bound
    inside the compaction, when an entry with a type is converted. A run
    that gets as far as writing its list therefore ends in one of two
    ways: some written airport has a pair [[kHz, code]] and the count 34
    is printed, or every written frequency is a bare number (possibly
    because the list is empty) and the last line raises [NameError]. *)
Theorem type_count_needs_a_typed_frequency
  (airport_rows freq_rows : list row)
  (out : list (airport compact_entry)) (report : result nat) :
  run float_of_string airport_rows freq_rows = Wrote out report ->
  (report = Ok 34%nat
   /\ exists o k c, o ∈ out /\ CPair k c ∈ a_f o)
  \/ (report = Raise NameError
      /\ forall o e, o ∈ out -> e ∈ a_f o -> exists k, e = CNum k).
Proof.
  rewrite run_spec. destruct (decide _) as [_|]; [|done].
  intros [= <- <-].
  set (d := extend _ _).
  assert (Hd : forall a, a ∈ dict_values d -> well_typed (a_f a)).
  { intros a Ha. rewrite (extended_airport _ _ _ Ha).
    apply entries_for_well_typed. }
  assert (Hw : forall o, o ∈ written float_of_string airport_rows freq_rows
               <-> exists a, a ∈ dict_values d /\ o = finalize a
                             /\ deduplicate (a_f a) <> []).
  { intros o. unfold written. fold d.
    rewrite list_elem_of_filter, list_elem_of_fmap. unfold has_freqs. split.
    - intros (Hne & a & -> & Ha). exists a. done.
    - intros (a & Ha & -> & Hne). split; [done|]. by exists a. }
  destruct (existsb _ _) eqn:Hex.
  - left. split; [done|].
    apply existsb_exists in Hex as (a & Ha%list_elem_of_In & Hb).
    apply binds_type_map_pair in Hb as (k & c & Hp); [|by apply Hd].
    exists (finalize a), k, c. split; [|done].
    apply Hw. exists a. split_and!; [done|done|].
    intros Hnil. rewrite Hnil in Hp. by apply elem_of_nil in Hp.
  - right. split; [done|]. intros o e (a & Ha & -> & _)%Hw He.
    cbn [finalize a_f] in He. destruct e as [k|k c]; [by exists k|].
    exfalso. assert (Hb : binds_type_map (a_f a) = true).
    { apply binds_type_map_pair; [by apply Hd|]. by exists k, c. }
    assert (Ht : existsb (fun a => binds_type_map (a_f a)) (dict_values d)
                 = true).
    { apply existsb_exists. exists a. by rewrite <- list_elem_of_In. }
    congruence.
Qed.

Lemma last_None {A} (l : list A) : last l = None <-> l = [].
Proof.
  split; [|by intros ->]. destruct l as [|x l] using rev_ind; [done|].
  by rewrite last_snoc.
Qed.

Lemma last_coords_None (rows : list row) (icao : string) :
  last_coords float_of_string rows icao = None
  <-> icao ∉ valid_codes float_of_string rows.
Proof.
  unfold last_coords, valid_codes. rewrite last_None.
  induction rows as [|r rows IH]; [split; [intros _; apply not_elem_of_nil|done]|].
  rewrite !omap_cons_eq.
  destruct (coords_of_row float_of_string r) as [[k l]|]; cbn [fmap option_fmap option_map fst]; [|done].
  destruct (decide (k = icao)) as [->|Hne].
  - split; [done|]. intros Hn. exfalso. apply Hn. left.
  - rewrite IH, not_elem_of_cons. split; [by split|by intros [_ ?]].
Qed.

(** X3. An airport row is skipped without any other effect when the code,
    the latitude or the longitude is missing, [None] or empty, or when a
    coordinate does not parse: the run ends exactly as it does on the
    input without this row, wherever the row stands. *)
Theorem airport_row_defects_skipped
  (rows1 rows2 : list row) (r : row) (freq_rows : list row) :
  falsy (row_get r "ICAO") \/ falsy (row_get r "lat")
  \/ falsy (row_get r "lon")
  \/ (exists lat, row_get r "lat" = Some lat /\ float_of_string lat = None)
  \/ (exists lon, row_get r "lon" = Some lon /\ float_of_string lon = None) ->
  run float_of_string (rows1 ++ r :: rows2) freq_rows
  = run float_of_string (rows1 ++ rows2) freq_rows.
Proof.
  intros Hdef. apply defective_airport_row_skipped. unfold coords_of_row.
  destruct (row_get r "ICAO") as [[|a icao]|] eqn:Hi;
    destruct (row_get r "lat") as [[|b lat]|] eqn:Hla;
    destruct (row_get r "lon") as [[|c lon]|] eqn:Hlo; try done.
  cbn [nonempty andb].
  destruct Hdef as [[?|?]|[[?|?]|[[?|?]|[(s & [= <-] & Hs)|(s & [= <-] & Hs)]]]];
    try done.
  - by rewrite Hs.
  - rewrite Hs. by destruct (float_of_string (String b lat)).
Qed.

(** X4. A frequency row whose type is not [None] is skipped without any
    other effect when its airport code is missing or is the code of no
    valid airport row, when its frequency is missing, [None] or empty,
    when the frequency does not parse, or when the parsed value is not
    accepted by the validation: the run ends exactly as it does on the
    input without this row. *)
Theorem frequency_row_defects_skipped
  (airport_rows : list row) (rows1 rows2 : list row) (r : row) :
  r !! "type"%string <> Some None ->
  (forall icao, row_get r "airport" = Some icao ->
                icao ∉ valid_codes float_of_string airport_rows)
  \/ falsy (row_get r "frequency")
  \/ (exists s, row_get r "frequency" = Some s
        /\ match float_of_string s with
           | Some v => validate v = None
           | None => True
           end) ->
  run float_of_string airport_rows (rows1 ++ r :: rows2)
  = run float_of_string airport_rows (rows1 ++ rows2).
Proof.
  intros Hty Hdef. apply defective_frequency_row_skipped.
  { by rewrite row_type_None. }
  unfold observation.
  destruct (row_get r "airport") as [icao|] eqn:Hi; [|done].
  destruct (row_get r "frequency") as [s|] eqn:Hs; [|done].
  destruct (row_get_default r "type" "") as [ty|]; [|done].
  destruct (nonempty s) eqn:Hne; [|done].
  destruct (float_of_string s) as [v|] eqn:Hv; [|done].
  destruct (validate v) as [k|] eqn:Hk; [|done].
  destruct Hdef as [Hno|[[?|[= ->]]|(s' & [= <-] & Hs')]]; try done.
  - apply last_coords_None. by apply Hno.
  - rewrite Hv in Hs'. congruence.
Qed.

End run_extras.

Section output_extras.

Variable float_of_string : string -> option float.

Local Abbreviation row := (gmap string (option string)).

Lemma validate_range (v : float) (k : Z) :
  valid v = true -> validate v = Some k -> 108000 <= k <= 137000.
Proof.
  intros Hv. unfold validate. destruct (in_band (rescale v)) eqn:Hb; [|done].
  destruct (in_band_khz (rescale v)) as (k' & Hk' & Hrange);
    [by apply rescale_valid|done|].
  rewrite Hk'. by intros [= <-].
Qed.

Lemma elem_of_entries_for (icao : string) (rows : list row) (e : freq_entry) :
  e ∈ entries_for float_of_string icao rows ->
  exists r khz label,
    r ∈ rows
    /\ observation float_of_string r = Some (icao, (khz, label))
    /\ e = observed_entry (khz, label).
Proof.
  unfold entries_for, observations_for.
  rewrite list_elem_of_fmap. intros ([khz label] & -> & Hin).
  apply list_elem_of_omap in Hin as (r & Hr & Hobs).
  destruct (observation float_of_string r) as [[k o]|] eqn:Ho; [|done].
  destruct (decide (k = icao)) as [->|]; [|done].
  injection Hobs as ->. by exists r, khz, label.
Qed.

Lemma observation_validated (r : row) (icao : string) (khz : Z)
  (label : string) :
  observation float_of_string r = Some (icao, (khz, label)) ->
  exists s v, row_get r "frequency" = Some s
              /\ float_of_string s = Some v /\ validate v = Some khz.
Proof.
  unfold observation.
  destruct (row_get r "airport") as [i|]; [|done].
  destruct (row_get r "frequency") as [s|]; [|done].
  destruct (row_get_default r "type" "") as [ty|]; [|done].
  destruct (nonempty s); [|done].
  destruct (float_of_string s) as [v|] eqn:Hv; [|done].
  destruct (validate v) as [k|] eqn:Hk; [|done].
  intros [= -> -> ->]. by exists s, v.
Qed.

Lemma compact_key_compact (e : freq_entry) :
  compact_key (compact e) = freq_key e.
Proof. by destruct e. Qed.

Lemma map_type_not_label (t : string) : dict_get TYPE_MAP (map_type t) = None.
Proof.
  unfold map_type, type_map_get.
  destruct (nonempty t) eqn:Hne; [|by destruct t].
  destruct (dict_get TYPE_MAP t) as [code|] eqn:Hget; cbn [default]; [|done].
  by apply TYPE_MAP_get in Hget as (_ & _ & ?).
Qed.

(** X5. The frequencies of every written airport. When the frequency
    fields that parse give binary64 numbers, each airport of the written
    list has at least one frequency, its frequencies are in strictly
    ascending order of their kHz value (so that no value occurs twice),
    every value lies between 108000 and 137000 kHz, and the code of every
    pair [[kHz, code]] is not empty and is not a label of the type table. *)
Theorem written_frequencies_invariant (airport_rows freq_rows : list row)
  (out : list (airport compact_entry)) (report : result nat) :
  Forall (frequency_parses_valid float_of_string) freq_rows ->
  run float_of_string airport_rows freq_rows = Wrote out report ->
  Forall (fun o =>
            a_f o <> []
            /\ StronglySorted Z.lt (compact_key <$> a_f o)
            /\ Forall (fun e =>
                         108000 <= compact_key e <= 137000
                         /\ match e with
                            | CNum _ => True
                            | CPair _ code =>
                                nonempty code = true
                                /\ dict_get TYPE_MAP code = None
                            end) (a_f o)) out.
Proof.
  intros Hvalid Hrun. apply run_Wrote in Hrun as ->.
  apply Forall_forall. intros o (l & Hl & Hne & Ho)%elem_of_written.
  set (fs := entries_for float_of_string (a_c o) freq_rows) in *.
  rewrite Ho. cbn [a_f]. split_and!.
  - by rewrite deduplicate_nil.
  - unfold deduplicate. rewrite <- list_fmap_compose.
    rewrite (list_fmap_ext (compact_key ∘ compact) freq_key)
      by (intros; apply compact_key_compact).
    apply freq_list_sorted.
  - apply Forall_forall. intros c. unfold deduplicate.
    rewrite list_elem_of_fmap. intros (e & -> & He).
    rewrite compact_key_compact.
    apply elem_of_freq_list in He as [He Hk]. split.
    + apply list_elem_of_fmap in Hk as (y & Hy & Hin).
      apply elem_of_entries_for in Hin as (r & khz & label & Hr & Hobs & ->).
      apply observation_validated in Hobs as (s & v & Hs & Hv & Hval).
      rewrite Forall_forall in Hvalid.
      rewrite Hy. unfold observed_entry, make_entry. cbn [fst snd].
      assert (108000 <= khz <= 137000)
        by (eapply validate_range; [by eapply Hvalid|done]).
      by destruct (nonempty _).
    + destruct e as [k|k t]; [done|]. cbn [compact freq_key] in *.
      unfold first_dict in He.
      destruct (List.find _ fs) as [e|] eqn:Hfind; [|done]. subst e.
      apply find_Some_elem in Hfind as [Hin _].
      pose proof (entries_for_well_typed float_of_string (a_c o) freq_rows)
        as Hwt.
      unfold well_typed in Hwt. rewrite Forall_forall in Hwt.
      specialize (Hwt _ Hin). cbn [is_dict has_type] in Hwt.
      split; [by rewrite nonempty_map_type|apply map_type_not_label].
Qed.

Lemma first_appearances_snoc (codes : list string) (k : string) :
  first_appearances (codes ++ [k]) =
  if decide (k ∈ first_appearances codes) then first_appearances codes
  else first_appearances codes ++ [k].
Proof.
  unfold first_appearances. rewrite reverse_snoc. cbn [remove_dups].
  destruct (decide_rel elem_of k (reverse codes)) as [Hin|Hnin].
  - rewrite decide_True; [done|].
    by rewrite elem_of_reverse, elem_of_remove_dups.
  - rewrite decide_False.
    + by rewrite reverse_cons.
    + by rewrite elem_of_reverse, elem_of_remove_dups.
Qed.

Lemma build_airports_keys (rows : list row) :
  dict_keys (build_airports float_of_string rows)
  = first_appearances (valid_codes float_of_string rows).
Proof.
  induction rows as [|r rows IH] using rev_ind; [done|].
  unfold build_airports, valid_codes in *.
  rewrite fold_left_app, omap_app, omap_singleton_eq. cbn [fold_left].
  rewrite airport_step_coords.
  destruct (coords_of_row float_of_string r) as [[k l]|];
    cbn [fmap option_fmap option_map fst].
  - rewrite first_appearances_snoc, dict_keys_set, <- IH.
    destruct (dict_get _ k) as [a|] eqn:Hget.
    + apply dict_get_Some_key in Hget. by rewrite decide_True.
    + apply dict_get_None in Hget. by rewrite decide_False.
  - by rewrite app_nil_r.
Qed.

Lemma extended_codes (f : string -> list freq_entry)
  (d : list (string * airport freq_entry)) :
  (forall k a, (k, a) ∈ d -> a_c a = k /\ a_f a = []) ->
  a_c <$> filter has_freqs (finalize <$> dict_values (extend f d))
  = filter (fun c => f c <> []) (dict_keys d).
Proof.
  induction d as [|[k a] d IH]; intros Hd; [done|].
  destruct (Hd k a) as [Hc Hf]; [left|].
  unfold extend, dict_values, dict_keys in *. rewrite !fmap_cons.
  cbn [fst snd]. rewrite !filter_cons.
  rewrite Hf, app_nil_l.
  assert (IH' := IH (fun k' a' H => Hd k' a' (list_elem_of_further _ _ _ H))).
  destruct (decide (has_freqs _)) as [Hh|Hh];
    unfold has_freqs in Hh; cbn [finalize a_f] in Hh;
    rewrite deduplicate_nil in Hh.
  - rewrite decide_True by done. rewrite fmap_cons. cbn [finalize a_c].
    by rewrite Hc, IH'.
  - rewrite decide_False by done. done.
Qed.

(** X6. The order of the written list. The airports are written in the
    order in which their codes first appear among the valid airport rows
    (a later row with the same code changes the coordinates, not the
    place), each code once, and exactly the codes for which the frequency
    rows give at least one accepted frequency. *)
Theorem written_codes_in_order_of_first_appearance
  (airport_rows freq_rows : list row) :
  a_c <$> written float_of_string airport_rows freq_rows
  = filter (fun c => entries_for float_of_string c freq_rows <> [])
      (first_appearances (valid_codes float_of_string airport_rows)).
Proof.
  unfold written. rewrite extended_codes, build_airports_keys; [done|].
  intros k a (l & _ & ->)%build_airports_elem. done.
Qed.

End output_extras.

Section entry_extras.

Lemma all_space_lstrip (s : string) : all_space (lstrip s) = all_space s.
Proof.
  induction s as [|a s IH]; [done|]. cbn [lstrip all_space].
  destruct (is_space a) eqn:Ha; [done|]. cbn [all_space]. by rewrite Ha.
Qed.

Lemma nonempty_rstrip (s : string) : nonempty (rstrip s) = negb (all_space s).
Proof.
  induction s as [|a s IH]; [done|]. cbn [rstrip all_space].
  rewrite IH, negb_involutive.
  by destruct (is_space a), (all_space s).
Qed.

Lemma nonempty_strip (s : string) : nonempty (strip s) = negb (all_space s).
Proof. unfold strip. by rewrite nonempty_rstrip, all_space_lstrip. Qed.

(** X7. A type made of whitespace only counts as no type: the entry that
    the frequency loop and the compaction produce for an accepted
    frequency is the bare number exactly when the type field is empty or
    consists of whitespace, and otherwise it is a pair whose code is not
    empty. *)
Theorem blank_type_gives_bare_number (k : Z) (label : string) :
  (compact (observed_entry (k, label)) = CNum k
   <-> all_space label = true)
  /\ (all_space label = false ->
      compact (observed_entry (k, label)) = CPair k (type_code label)
      /\ nonempty (type_code label) = true).
Proof.
  unfold observed_entry, make_entry, type_code. cbn [fst snd].
  rewrite nonempty_map_type, nonempty_strip.
  destruct (all_space label); cbn [negb compact]; split; done.
Qed.

Lemma TYPE_MAP_shared_codes :
  Forall (fun p : string * string =>
            Forall (fun q : string * string =>
                      p.2 = q.2 -> p.1 = q.1 \/ p.2 = "Y"%string) TYPE_MAP)
         TYPE_MAP.
Proof.
  apply (bool_decide_unpack _). vm_compute. exact I.
Qed.

(** X8. The type table. Its 34 labels are pairwise different; mapping is
    idempotent, because no code of the table is itself a label of the
    table; and the mapping of the table's labels is injective except for
    the code ["Y"], which both ["A/G"] and ["GCA"] get. *)
Theorem type_table_codes :
  NoDup (dict_keys TYPE_MAP)
  /\ length TYPE_MAP = 34%nat
  /\ (forall t, map_type (map_type t) = map_type t)
  /\ (forall t1 t2 code,
        dict_get TYPE_MAP t1 = Some code -> dict_get TYPE_MAP t2 = Some code ->
        t1 = t2 \/ code = "Y"%string)
  /\ map_type "A/G" = "Y"%string /\ map_type "GCA" = "Y"%string.
Proof.
  split_and!; [|done|apply map_type_idempotent| |done|done].
  - apply (bool_decide_unpack _). vm_compute. exact I.
  - intros t1 t2 code H1%dict_get_Some_elem H2%dict_get_Some_elem.
    pose proof TYPE_MAP_shared_codes as H. rewrite Forall_forall in H.
    specialize (H _ H1). rewrite Forall_forall in H.
    exact (H _ H2 eq_refl).
Qed.

Lemma first_dict_is_dict (fs : list freq_entry) (k : Z) :
  is_dict (first_dict fs k)
  = existsb (fun x => (freq_key x =? k) && is_dict x) fs.
Proof.
  unfold first_dict.
  destruct (List.find _ fs) as [e|] eqn:Hfind.
  - apply find_Some_elem in Hfind as [Hin Hp].
    assert (Hd : is_dict e = true) by by apply andb_true_iff in Hp as [_ ?].
    rewrite Hd. symmetry.
    apply existsb_exists. exists e. by rewrite <- list_elem_of_In.
  - cbn [is_dict]. symmetry. apply not_true_is_false.
    intros (x & Hin%list_elem_of_In & Hp)%existsb_exists.
    by rewrite (find_None_elem _ _ _ Hfind Hin) in Hp.
Qed.

Lemma existsb_Permutation {A} (p : A -> bool) (l1 l2 : list A) :
  l1 ≡ₚ l2 -> existsb p l1 = existsb p l2.
Proof.
  intros Hp. destruct (existsb p l2) eqn:H2.
  - apply existsb_exists in H2 as (x & Hin & Hx). apply existsb_exists.
    exists x. split; [|done]. apply list_elem_of_In.
    rewrite Hp. by apply list_elem_of_In.
  - apply not_true_is_false.
    intros (x & Hin & Hx)%existsb_exists.
    assert (existsb p l2 = true); [|congruence].
    apply existsb_exists. exists x. split; [|done]. apply list_elem_of_In.
    rewrite <- Hp. by apply list_elem_of_In.
Qed.

Lemma sorted_keys_Permutation (fs1 fs2 : list freq_entry) :
  fs1 ≡ₚ fs2 ->
  sorted id (remove_dups (freq_key <$> fs1))
  = sorted id (remove_dups (freq_key <$> fs2)).
Proof.
  intros Hp. apply StronglySorted_lt_unique.
  - apply sorted_NoDup_lt, NoDup_remove_dups.
  - apply sorted_NoDup_lt, NoDup_remove_dups.
  - intros z. rewrite !elem_of_sorted, !elem_of_remove_dups. by rewrite Hp.
Qed.

(** X9. The order of the frequency entries of an airport only decides
    which type survives. Two lists with the same entries in different
    orders give, after the removal of duplicates and the compaction, the
    same kHz values, and at each value a pair in both results or a bare
    number in both. *)
Theorem deduplicate_order_only_changes_codes (fs1 fs2 : list freq_entry) :
  fs1 ≡ₚ fs2 ->
  (fun e => (compact_key e, is_pair e)) <$> deduplicate fs1
  = (fun e => (compact_key e, is_pair e)) <$> deduplicate fs2.
Proof.
  intros Hp. unfold deduplicate. rewrite !freq_list_normal_form.
  rewrite (sorted_keys_Permutation _ _ Hp).
  rewrite <- !list_fmap_compose. apply list_fmap_ext. intros _ k _.
  cbn [compose].
  assert (Hc : forall e, (compact_key (compact e), is_pair (compact e))
                         = (freq_key e, is_dict e)) by by intros [].
  rewrite !Hc, !freq_key_first_dict, !first_dict_is_dict.
  by rewrite (existsb_Permutation _ _ _ Hp).
Qed.

End entry_extras.

Section own_rows.

Variable float_of_string : string -> option float.

Local Abbreviation row := (gmap string (option string)).

Lemma observation_airport (r : row) (icao : string) (o : Z * string) :
  observation float_of_string r = Some (icao, o) ->
  row_get r "airport" = Some icao.
Proof.
  unfold observation.
  destruct (row_get r "airport") as [i|]; [|done].
  destruct (row_get r "frequency") as [s|]; [|done].
  destruct (row_get_default r "type" "") as [ty|]; [|done].
  destruct (nonempty s); [|done].
  destruct (float_of_string s) as [v|]; [|done].
  destruct (validate v) as [k|]; [|done]. by intros [= -> _].
Qed.

Lemma entries_for_rows_of (icao : string) (rows : list row) :
  entries_for float_of_string icao (rows_of icao rows)
  = entries_for float_of_string icao rows.
Proof.
  unfold rows_of. induction rows as [|r rows IH]; [done|].
  rewrite filter_cons. destruct (decide _) as [Heq|Hne].
  - by rewrite !entries_for_cons, IH.
  - rewrite entries_for_cons, IH.
    destruct (observation float_of_string r) as [[k o]|] eqn:Ho; [|done].
    apply observation_airport in Ho.
    destruct (decide (k = icao)) as [->|]; [done|done].
Qed.

(** X10. The record of an airport depends on its own frequency rows only.
    When a run writes its list, the run on the frequency rows whose
    airport field is the code of a record [o] also writes a list, and [o]
    is in the one list exactly when it is in the other: the rows of the
    other airports neither add nor change a frequency of [o]. *)
Theorem record_depends_on_own_rows (airport_rows freq_rows : list row)
  (out : list (airport compact_entry)) (report : result nat)
  (o : airport compact_entry) :
  run float_of_string airport_rows freq_rows = Wrote out report ->
  exists out' report',
    run float_of_string airport_rows (rows_of (a_c o) freq_rows)
    = Wrote out' report'
    /\ (o ∈ out <-> o ∈ out').
Proof.
  rewrite !run_spec. destruct (decide _) as [Hall|]; [|done].
  intros [= <- _]. rewrite decide_True.
  - eexists _, _. split; [done|].
    by rewrite !elem_of_written, entries_for_rows_of.
  - unfold rows_of. rewrite Forall_forall in Hall. apply Forall_forall.
    intros r [_ Hr]%list_elem_of_filter. by apply Hall.
Qed.

End own_rows.

Section khz_facts.

Lemma ltb_finite_lt (M1 M2 : positive) (e1 e2 : Z) :
  e1 < e2 -> ltb (S754_finite false M1 e1) (S754_finite false M2 e2) = true.
Proof.
  intros. unfold ltb, SFltb, SFcompare.
  destruct (Z.compare_spec e1 e2); [lia|done|lia].
Qed.

(** An even mantissa of 54 bits with nothing lost so far is halved
    without rounding. *)
Lemma binary_round_aux_even_exact (s : bool) (q : positive) (ex : Z) :
  2 ^ 52 <= Zpos q < 2 ^ 53 ->
  SpecFloat.emin prec emax <= ex + 1 -> ex + 1 <= emax - prec ->
  binary_round_aux prec emax s (Zpos q~0) ex loc_Exact
  = S754_finite s q (ex + 1).
Proof.
  intros Hq Hlo Hhi. rewrite binary_round_aux_eq.
  assert (Hd1 : Zdigits2 (Zpos q~0) = 54).
  { apply Zdigits2_unique; [done|]. rewrite Pos2Z.inj_xO. lia. }
  assert (Hd2 : Zdigits2 (Zpos q) = 53) by (apply Zdigits2_unique; [done|lia]).
  assert (H1 : shr_fexp prec emax (Zpos q~0) ex loc_Exact
               = ({| shr_m := Zpos q; shr_r := false; shr_s := false |},
                  ex + 1)).
  { unfold shr_fexp. rewrite Hd1.
    replace (SpecFloat.fexp prec emax (54 + ex) - ex) with 1
      by (unfold SpecFloat.fexp, SpecFloat.emin, prec, emax in *; lia).
    reflexivity. }
  cbv zeta. rewrite H1. cbn [fst snd shr_m loc_of_shr_record shr_r shr_s].
  cbn [round_nearest_even].
  assert (H2 : shr_fexp prec emax (Zpos q) (ex + 1) loc_Exact
               = ({| shr_m := Zpos q; shr_r := false; shr_s := false |},
                  ex + 1)).
  { unfold shr_fexp. rewrite Hd2.
    replace (SpecFloat.fexp prec emax (53 + (ex + 1)) - (ex + 1)) with 0
      by (unfold SpecFloat.fexp, SpecFloat.emin, prec, emax in *; lia).
    reflexivity. }
  rewrite H2. cbn [fst snd shr_m].
  by rewrite (proj2 (Z.leb_le _ _) Hhi).
Qed.

(** The conversion of an integer below [2^53] to a float is exact. *)
Lemma of_Z_exact (k d : Z) :
  0 < d <= 53 -> 2 ^ (d - 1) <= k < 2 ^ d ->
  of_Z k = S754_finite false (Z.to_pos (k * 2 ^ (53 - d))) (d - 53).
Proof.
  intros Hd Hk.
  assert (Hpos : 0 < 2 ^ (d - 1)) by (apply Z.pow_pos_nonneg; lia).
  destruct k as [|p|p]; [lia| |lia].
  unfold of_Z, nearest, SFdiv_core_binary.
  rewrite (Zdigits2_unique (Zpos p) d) by lia.
  change (Zdigits2 1) with 1.
  replace (Z.min _ (0 - 0)) with (d - 54)
    by (unfold SpecFloat.fexp, SpecFloat.emin, prec, emax; lia).
  replace (0 - 0 - (d - 54)) with (54 - d) by lia.
  destruct (54 - d) as [|n|n] eqn:Hn; [lia| |lia].
  cbv zeta iota beta. rewrite Z.shiftl_mul_pow2 by lia.
  rewrite <- Hn.
  assert (Hm : Zpos p * 2 ^ (54 - d) = Zpos (Z.to_pos (Zpos p * 2 ^ (53 - d)))~0).
  { rewrite (Pos2Z.inj_xO (Z.to_pos _)), Z2Pos.id.
    - replace (54 - d) with (53 - d + 1) by lia.
      rewrite Z.pow_add_r by lia. lia.
    - apply Z.mul_pos_pos; [done|apply Z.pow_pos_nonneg; lia]. }
  rewrite Hm. set (q := Z.to_pos _).
  assert (Hdiv : Z.div_eucl (Zpos q~0) 1 = (Zpos q~0, 0)).
  { generalize (Z.div_1_r (Zpos q~0)) (Z.mod_1_r (Zpos q~0)).
    unfold Z.div, Z.modulo. destruct (Z.div_eucl _ 1). cbn [fst snd].
    congruence. }
  rewrite Hdiv. change (new_location 1 0) with loc_Exact.
  assert (Hq : Zpos q = Zpos p * 2 ^ (53 - d)).
  { unfold q. rewrite Z2Pos.id; [done|].
    apply Z.mul_pos_pos; [done|apply Z.pow_pos_nonneg; lia]. }
  assert (Hpow : 2 ^ (d - 1) * 2 ^ (53 - d) = 2 ^ 52)
    by (rewrite <- Z.pow_add_r by lia; f_equal; lia).
  assert (Hpow' : 2 ^ d * 2 ^ (53 - d) = 2 ^ 53)
    by (rewrite <- Z.pow_add_r by lia; f_equal; lia).
  assert (Hp2 : 0 < 2 ^ (53 - d)) by (apply Z.pow_pos_nonneg; lia).
  rewrite binary_round_aux_even_exact.
  - f_equal. lia.
  - rewrite Hq. nia.
  - unfold SpecFloat.emin, prec, emax. lia.
  - unfold prec, emax. lia.
Qed.

Lemma of_Z_108000 : of_Z 108000 = S754_finite false 7421703487488000 (-36).
Proof. vm_compute. reflexivity. Qed.

Lemma of_Z_137000 : of_Z 137000 = S754_finite false 4707284156416000 (-35).
Proof. vm_compute. reflexivity. Qed.

(** A valid float between 108000 and 137000 is positive, with one of two
    exponents. *)
Lemma in_khz_band_inv (v : float) :
  valid v = true -> in_khz_band v = true ->
  exists M e, v = S754_finite false M e
    /\ ((e = -36 /\ 108000 * 2 ^ 36 <= Zpos M < 2 ^ 53)
        \/ (e = -35 /\ 2 ^ 52 <= Zpos M <= 137000 * 2 ^ 35)).
Proof.
  intros Hv Hb. unfold in_khz_band in Hb.
  rewrite of_Z_108000, of_Z_137000 in Hb.
  apply andb_true_iff in Hb as [Hlo Hhi].
  destruct v as [s|s| |s M e];
    [cbv in Hlo; discriminate Hlo
    |destruct s; [cbv in Hlo; discriminate Hlo|cbv in Hhi; discriminate Hhi]
    |cbv in Hlo; discriminate Hlo|].
  apply leb_finite in Hlo as [-> Hlo].
  apply leb_finite_l in Hhi; [|reflexivity].
  exists M, e. split; [reflexivity|].
  assert (Hd : 2 ^ 52 <= Zpos M < 2 ^ 53).
  { apply (valid_normal_digits false M e Hv).
    unfold SpecFloat.emin, prec, emax. lia. }
  lia.
Qed.

(** The quotient of a float above 500 by 1000 differs from the exact
    quotient by less than one unit in the last place, and it is not below
    the exact quotient rounded down. *)
Lemma div_f1000_cases (M : positive) (e : Z) :
  2 ^ 52 <= Zpos M < 2 ^ 53 -> -44 <= e <= 971 ->
  exists M' e',
    div (S754_finite false M e) f1000 = S754_finite false M' e'
    /\ valid (S754_finite false M' e') = true
    /\ 2 ^ 52 <= Zpos M' < 2 ^ 53
    /\ ((e' = e - 10
         /\ -1000 < 1000 * Zpos M' - Zpos M * 2 ^ 10 <= 1000)
        \/ (e' = e - 9
            /\ -2000 < 2000 * Zpos M' - Zpos M * 2 ^ 10 <= 2000)).
Proof.
  intros HM He. rewrite div_f1000_finite by lia.
  set (Q := Zpos M * 2 ^ 53 / 8796093022208000).
  assert (HQ : 1000 * Q <= Zpos M * 2 ^ 10 < 1000 * (Q + 1)).
  { pose proof (Z.div_mod (Zpos M * 2 ^ 53) 8796093022208000 ltac:(lia)) as H1.
    pose proof (Z.mod_pos_bound (Zpos M * 2 ^ 53) 8796093022208000 ltac:(lia))
      as H2.
    fold Q in H1. lia. }
  assert (Hq : 2 ^ 52 <= Q < 2 ^ 54) by lia.
  pose proof (Zdigits2_between Q 53 54 ltac:(done) Hq) as Hd.
  pose proof (Zdigits2_bounds Q ltac:(lia)) as Hb.
  destruct (binary_round_aux_normal false Q (e - 10)
              (new_location 8796093022208000
                 (Zpos M * 2 ^ 53 mod 8796093022208000)) (Zdigits2 Q))
    as (M' & e' & -> & Hvalid & Hres);
    [lia|done|unfold prec; lia
    |unfold SpecFloat.emin, prec, emax; lia|unfold prec, emax; lia|].
  exists M', e'. split; [done|]. split; [done|].
  assert (HM' : 2 ^ 52 <= Zpos M' < 2 ^ 53).
  { apply (valid_normal_digits false M' e' Hvalid).
    unfold SpecFloat.emin, prec, emax in *.
    destruct Hres as [[-> _]|[-> _]]; lia. }
  split; [done|]. unfold prec in Hres.
  destruct (decide (Zdigits2 Q = 53)) as [H53|H54].
  - rewrite H53 in Hres, Hb. change (53 - 53) with 0 in Hres.
    rewrite Z.div_1_r in Hres. change (53 - 1) with 52 in *.
    destruct Hres as [[-> Hm]|(-> & Hm & Hc)]; [left|right]; lia.
  - assert (H54' : Zdigits2 Q = 54) by lia.
    rewrite H54' in Hres, Hb. change (54 - 53) with 1 in Hres.
    change (54 - 1) with 53 in *.
    pose proof (div_floor_bounds Q 1 ltac:(lia)) as Hq2.
    destruct Hres as [[-> Hm]|(-> & Hm & Hc)]; [right|]; lia.
Qed.

Lemma band_result (M' : positive) (e' k : Z) :
  (e' = -46 /\ 108 * 2 ^ 46 <= Zpos M' < 2 ^ 53
   /\ -1000 <= 1000 * Zpos M' - k * 2 ^ 46 <= 1000)
  \/ (e' = -45 /\ 2 ^ 52 <= Zpos M' <= 137 * 2 ^ 45
      /\ -2000 <= 2000 * Zpos M' - k * 2 ^ 46 <= 2000) ->
  in_band (S754_finite false M' e') = true
  /\ py_round (mul (S754_finite false M' e') f1000) = Some k.
Proof.
  intros HM.
  assert (Hcases : (e' = -46 /\ 108 * 2 ^ 46 <= Zpos M' < 2 ^ 53)
                   \/ (e' = -45 /\ 2 ^ 52 <= Zpos M' <= 137 * 2 ^ 45))
    by (destruct HM as [(? & ? & _)|(? & ? & _)]; [by left|by right]).
  split.
  - unfold in_band, VHF_MIN, VHF_MAX.
    rewrite !leb_finite_intro; [done|lia..].
  - destruct (mul_f1000_faithful M' e' Hcases) as (M2 & e2 & -> & Hres).
    destruct Hres as [(-> & -> & HM2)|[(-> & -> & HM2)|(-> & -> & HM2)]];
      rewrite py_round_finite_neg; f_equal; apply round_half_even_near; lia.
Qed.

Lemma div_khz_band (M : positive) (e : Z) :
  (e = -36 /\ 108000 * 2 ^ 36 <= Zpos M < 2 ^ 53)
  \/ (e = -35 /\ 2 ^ 52 <= Zpos M < 137000 * 2 ^ 35) ->
  exists M' e',
    div (S754_finite false M e) f1000 = S754_finite false M' e'
    /\ valid (S754_finite false M' e') = true
    /\ ((e' = -46 /\ 108 * 2 ^ 46 <= Zpos M' < 2 ^ 53
         /\ -1000 <= 1000 * Zpos M' - Zpos M * 2 ^ (e + 46) <= 1000)
        \/ (e' = -45 /\ 2 ^ 52 <= Zpos M' <= 137 * 2 ^ 45
            /\ -2000 <= 2000 * Zpos M' - Zpos M * 2 ^ (e + 46) <= 2000)).
Proof.
  intros Hcases.
  destruct (div_f1000_cases M e) as (M' & e' & Hdiv & Hvalid & HM' & Hres);
    [lia|lia|].
  exists M', e'. split; [done|]. split; [done|].
  destruct Hcases as [[-> HM]|[-> HM]].
  - change (-36 + 46) with 10.
    destruct Hres as [[-> Hm]|[-> Hm]]; [left|right]; lia.
  - change (-35 + 46) with 11.
    destruct Hres as [[-> Hm]|[-> Hm]]; [right|]; lia.
Qed.

(** X11. What the validation accepts. A binary64 value gives a frequency
    exactly when it lies in one of two ranges: between 108.0 and 137.0,
    read as MHz, or between 108000 and 137000, read as kHz. All the other
    values give no entry: those below 108, those above 137 up to 500,
    which are not rescaled, and those above 500 whose quotient by 1000
    falls outside the band, as well as the infinities and NaN. *)
Theorem validator_accepts_two_ranges (v : float) :
  valid v = true ->
  (exists k, validate v = Some k)
  <-> in_band v = true \/ in_khz_band v = true.
Proof.
  intros Hv. split.
  - intros [k Hk]. unfold validate in Hk.
    destruct (in_band (rescale v)) eqn:Hb; [|done]. unfold rescale in Hb.
    destruct (ltb f500 v) eqn:Hlt; [|by left]. right.
    unfold f500 in Hlt.
    destruct v as [s|s| |s M e];
      [cbv in Hlt; discriminate Hlt
      |destruct s; [cbv in Hlt; discriminate Hlt|cbv in Hb; discriminate Hb]
      |cbv in Hlt; discriminate Hlt|].
    apply ltb_finite in Hlt as [-> He].
    assert (HM : 2 ^ 52 <= Zpos M < 2 ^ 53).
    { apply (valid_normal_digits false M e Hv).
      unfold SpecFloat.emin, prec, emax. lia. }
    assert (Hmax : e <= 971).
    { unfold valid, valid_binary, bounded, prec, emax in Hv.
      apply andb_true_iff in Hv as [_ Hv]. apply Z.leb_le in Hv. lia. }
    destruct (div_f1000_cases M e) as (M' & e' & Hdiv & Hvalid & HM' & Hres);
      [lia|lia|].
    rewrite Hdiv in Hb.
    destruct (in_band_inv _ Hvalid Hb) as (M0 & e0 & [= <- <-] & Hband).
    unfold in_khz_band. rewrite of_Z_108000, of_Z_137000.
    rewrite !leb_finite_intro; [done| |].
    + destruct Hband as [[-> Hb1]|[-> Hb1]];
        destruct Hres as [[He' Hm]|[He' Hm]]; lia.
    + destruct Hband as [[-> Hb1]|[-> Hb1]];
        destruct Hres as [[He' Hm]|[He' Hm]]; lia.
  - intros [Hb|Hb].
    + destruct (in_band_khz v Hv Hb) as (k & Hk & _). exists k.
      unfold validate. by rewrite in_band_not_rescaled, Hb.
    + destruct (in_khz_band_inv v Hv Hb) as (M & e & -> & Hcases).
      destruct (decide (e = -35 /\ Zpos M = 137000 * 2 ^ 35)) as [[-> HM]|Hne].
      { assert (M = 4707284156416000%positive) as -> by lia.
        exists 137000. vm_compute. reflexivity. }
      destruct (div_khz_band M e) as (M' & e' & Hdiv & Hvalid & Hres); [lia|].
      assert (Hin : in_band (S754_finite false M' e') = true).
      { unfold in_band, VHF_MIN, VHF_MAX.
        rewrite !leb_finite_intro; [done|lia..]. }
      destruct (in_band_khz _ Hvalid Hin) as (k & Hk & _). exists k.
      unfold validate, rescale, f500.
      rewrite ltb_finite_lt by lia. by rewrite Hdiv, Hin.
Qed.

(** X12. A frequency written as a whole number of kHz is accepted as it
    is: for every integer [k] from 108000 to 137000 the conversion of [k]
    to a float is exact, it is divided by 1000, and the validation gives
    [k] back. *)
Theorem bare_khz_integer_accepted (k : Z) :
  108000 <= k <= 137000 ->
  in_khz_band (of_Z k) = true /\ validate (of_Z k) = Some k.
Proof.
  intros Hk.
  destruct (decide (k = 137000)) as [->|Hne]; [by vm_compute|].
  set (d := if decide (k < 131072) then 17 else 18).
  assert (Hd : (d = 17 /\ k < 131072) \/ (d = 18 /\ 131072 <= k))
    by (unfold d; destruct (decide _); lia).
  rewrite (of_Z_exact k d) by (destruct Hd as [[-> ?]|[-> ?]]; lia).
  set (M := Z.to_pos _).
  assert (HM : Zpos M = k * 2 ^ (53 - d))
    by (unfold M; rewrite Z2Pos.id; [done|destruct Hd as [[-> ?]|[-> ?]]; lia]).
  assert (Hcases : (d - 53 = -36 /\ 108000 * 2 ^ 36 <= Zpos M < 2 ^ 53)
                   \/ (d - 53 = -35 /\ 2 ^ 52 <= Zpos M < 137000 * 2 ^ 35))
    by (destruct Hd as [[-> ?]|[-> ?]]; [left|right]; rewrite HM; lia).
  split.
  - unfold in_khz_band. rewrite of_Z_108000, of_Z_137000.
    rewrite !leb_finite_intro; [done|lia..].
  - destruct (div_khz_band M (d - 53) Hcases)
      as (M' & e' & Hdiv & Hvalid & Hres).
    destruct (band_result M' e' k) as [Hin Hround].
    { rewrite HM in Hres.
      destruct Hd as [[-> ?]|[-> ?]];
        [change (17 - 53 + 46) with 10 in Hres; change (53 - 17) with 36 in Hres
        |change (18 - 53 + 46) with 11 in Hres; change (53 - 18) with 35 in Hres];
        destruct Hres as [(-> & ? & ?)|(-> & ? & ?)]; [left|right|left|right];
        (split; [done|split; [done|lia]]). }
    unfold validate, rescale, f500.
    rewrite ltb_finite_lt by lia. by rewrite Hdiv, Hin.
Qed.

End khz_facts.

Section repeated_rows.

Variable float_of_string : string -> option float.

Local Abbreviation row := (gmap string (option string)).

Lemma freq_list_ext (fs1 fs2 : list freq_entry) :
  (forall k, k ∈ freq_key <$> fs1 <-> k ∈ freq_key <$> fs2) ->
  (forall k, first_dict fs1 k = first_dict fs2 k) ->
  freq_list fs1 = freq_list fs2.
Proof.
  intros Hkeys Hfirst. rewrite !freq_list_normal_form.
  replace (sorted id (remove_dups (freq_key <$> fs2)))
    with (sorted id (remove_dups (freq_key <$> fs1))).
  - apply list_fmap_ext. intros _ k _. apply Hfirst.
  - apply StronglySorted_lt_unique.
    + apply sorted_NoDup_lt, NoDup_remove_dups.
    + apply sorted_NoDup_lt, NoDup_remove_dups.
    + intros z. rewrite !elem_of_sorted, !elem_of_remove_dups. apply Hkeys.
Qed.

Lemma freq_list_repeated (a b c x : list freq_entry) :
  (length x <= 1)%nat ->
  freq_list (a ++ x ++ b ++ x ++ c) = freq_list (a ++ x ++ b ++ c).
Proof.
  intros Hx. destruct x as [|e [|e' x]]; [done| |cbn in Hx; lia].
  apply freq_list_ext.
  - intros k. repeat first [rewrite fmap_app | rewrite elem_of_app]. tauto.
  - intros k. unfold first_dict. f_equal.
    rewrite !find_app. cbn [List.find]. destruct (List.find _ a); [done|].
    destruct ((freq_key e =? k) && is_dict e) eqn:He; [done|].
    by destruct (List.find _ b).
Qed.

Lemma entries_for_app (icao : string) (rows1 rows2 : list row) :
  entries_for float_of_string icao (rows1 ++ rows2)
  = entries_for float_of_string icao rows1
    ++ entries_for float_of_string icao rows2.
Proof.
  unfold entries_for, observations_for. by rewrite omap_app, fmap_app.
Qed.

Lemma entries_for_one (icao : string) (r : row) :
  (length (entries_for float_of_string icao [r]) <= 1)%nat.
Proof.
  rewrite entries_for_cons.
  destruct (observation float_of_string r) as [[k o]|]; [|cbn; lia].
  destruct (decide (k = icao)); cbn; lia.
Qed.

Lemma compacted_ext (f1 f2 : string -> list freq_entry)
  (d : list (string * airport freq_entry)) :
  (forall k a, (k, a) ∈ d -> a_f a = []) ->
  (forall k, freq_list (f1 k) = freq_list (f2 k)) ->
  finalize <$> dict_values (extend f1 d)
  = finalize <$> dict_values (extend f2 d)
  /\ existsb (fun a => binds_type_map (a_f a)) (dict_values (extend f1 d))
     = existsb (fun a => binds_type_map (a_f a)) (dict_values (extend f2 d)).
Proof.
  intros Hd Hf. induction d as [|[k a] d IH]; [done|].
  destruct IH as [IH1 IH2].
  { intros k' a' Hin. apply (Hd k' a'). by right. }
  assert (Ha : a_f a = []) by (apply (Hd k a); left).
  unfold extend, dict_values in *. rewrite !fmap_cons. cbn [fst snd existsb].
  rewrite Ha, !app_nil_l. split.
  - rewrite IH1. f_equal. unfold finalize, deduplicate. cbn [a_c a_l a_f].
    by rewrite Hf.
  - rewrite IH2. f_equal. unfold binds_type_map. cbn [a_f]. by rewrite Hf.
Qed.

(** X13. A frequency row that repeats an earlier row has no effect: the
    run ends exactly as it does on the input without the second
    occurrence, whatever stands between the two and whether or not the row
    is accepted. *)
Theorem repeated_frequency_row_has_no_effect
  (airport_rows : list row) (rows1 rows2 rows3 : list row) (r : row) :
  run float_of_string airport_rows (rows1 ++ r :: rows2 ++ r :: rows3)
  = run float_of_string airport_rows (rows1 ++ r :: rows2 ++ rows3).
Proof.
  rewrite !run_spec.
  assert (Hall : Forall (fun r : row => row_get_default r "type" "" <> None)
                   (rows1 ++ r :: rows2 ++ r :: rows3)
                 <-> Forall (fun r : row => row_get_default r "type" "" <> None)
                       (rows1 ++ r :: rows2 ++ rows3)).
  { rewrite !Forall_app, !Forall_cons, !Forall_app, Forall_cons. tauto. }
  assert (Hf : forall k,
            freq_list (entries_for float_of_string k
                         (rows1 ++ r :: rows2 ++ r :: rows3))
            = freq_list (entries_for float_of_string k
                           (rows1 ++ r :: rows2 ++ rows3))).
  { intros k.
    change (r :: rows2 ++ r :: rows3) with ([r] ++ rows2 ++ [r] ++ rows3).
    change (r :: rows2 ++ rows3) with ([r] ++ rows2 ++ rows3).
    rewrite !entries_for_app.
    apply freq_list_repeated, entries_for_one. }
  destruct (compacted_ext _ _ (build_airports float_of_string airport_rows)
              ltac:(by intros k a (l & _ & ->)%build_airports_elem) Hf)
    as [Hw Hb].
  unfold written. rewrite Hw, Hb.
  destruct (decide (Forall _ (rows1 ++ r :: rows2 ++ r :: rows3)))
    as [H1|H1].
  - by rewrite decide_True by by apply Hall.
  - by rewrite decide_False by (by rewrite <- Hall).
Qed.

End repeated_rows.

(** * The properties on concrete rows *)

Lemma untyped_scenario_computed :
  run float_of_decimal_string [klax_row] [klax_blank_row]
  = Wrote [klax_untyped_record] (Raise NameError).
Proof. vm_compute. reflexivity. Qed.

Lemma type_count_needs_a_typed_frequency_witness :
  run float_of_decimal_string [klax_row] [klax_blank_row]
  = Wrote [klax_untyped_record] (Raise NameError)
  /\ ((Raise NameError = Ok 34%nat
       /\ exists o k c, o ∈ [klax_untyped_record] /\ CPair k c ∈ a_f o)
      \/ (Raise NameError = Raise (A:=nat) NameError
          /\ forall o e, o ∈ [klax_untyped_record] -> e ∈ a_f o ->
                         exists k, e = CNum k)).
Proof.
  split; [exact untyped_scenario_computed|].
  exact (type_count_needs_a_typed_frequency float_of_decimal_string
           _ _ _ _ untyped_scenario_computed).
Defined.

Lemma airport_row_defects_skipped_witness :
  falsy (row_get klax_no_lat_row "lat")
  /\ run float_of_decimal_string ([] ++ klax_no_lat_row :: [klax_row])
       [klax_tower_row]
     = run float_of_decimal_string ([] ++ [klax_row]) [klax_tower_row].
Proof.
  assert (H : falsy (row_get klax_no_lat_row "lat")) by (left; reflexivity).
  split; [exact H|].
  apply (airport_row_defects_skipped float_of_decimal_string
           [] [klax_row] klax_no_lat_row [klax_tower_row]).
  right. left. exact H.
Defined.

Lemma frequency_row_defects_skipped_witness :
  klax_250_row !! "type"%string = Some (Some "TOWER"%string)
  /\ row_get klax_250_row "frequency" = Some "250"%string
  /\ float_of_decimal_string "250" = Some (of_decimal false 250 0)
  /\ validate (of_decimal false 250 0) = None
  /\ run float_of_decimal_string [klax_row]
       ([klax_tower_row] ++ klax_250_row :: [])
     = run float_of_decimal_string [klax_row] ([klax_tower_row] ++ []).
Proof.
  split_and!; [reflexivity|reflexivity|vm_compute; reflexivity
              |vm_compute; reflexivity|].
  apply (frequency_row_defects_skipped float_of_decimal_string
           [klax_row] [klax_tower_row] [] klax_250_row).
  - discriminate.
  - right. right. exists "250"%string. split; [reflexivity|].
    vm_compute. reflexivity.
Defined.

Lemma scenario_rows_parse_valid :
  Forall (frequency_parses_valid float_of_decimal_string)
         [klax_tower_row; klax_blank_row].
Proof.
  repeat constructor; intros s v Hs Hf;
    vm_compute in Hs; injection Hs as <-;
    vm_compute in Hf; injection Hf as <-; vm_compute; reflexivity.
Defined.

Lemma written_frequencies_invariant_witness :
  Forall (frequency_parses_valid float_of_decimal_string)
         [klax_tower_row; klax_blank_row]
  /\ run float_of_decimal_string [klax_row] [klax_tower_row; klax_blank_row]
     = Wrote [klax_record] (Ok 34%nat)
  /\ Forall (fun o =>
               a_f o <> []
               /\ StronglySorted Z.lt (compact_key <$> a_f o)
               /\ Forall (fun e =>
                            108000 <= compact_key e <= 137000
                            /\ match e with
                               | CNum _ => True
                               | CPair _ code =>
                                   nonempty code = true
                                   /\ dict_get TYPE_MAP code = None
                               end) (a_f o)) [klax_record].
Proof.
  split; [exact scenario_rows_parse_valid|].
  split; [exact scenario_computed|].
  exact (written_frequencies_invariant float_of_decimal_string _ _ _ _
           scenario_rows_parse_valid scenario_computed).
Defined.

Lemma deduplicate_order_only_changes_codes_witness :
  [Num 119800; Dict 119800 "TOWER"] ≡ₚ [Dict 119800 "TOWER"; Num 119800]
  /\ (fun e => (compact_key e, is_pair e))
       <$> deduplicate [Num 119800; Dict 119800 "TOWER"]
     = (fun e => (compact_key e, is_pair e))
         <$> deduplicate [Dict 119800 "TOWER"; Num 119800].
Proof.
  assert (H : [Num 119800; Dict 119800 "TOWER"]
              ≡ₚ [Dict 119800 "TOWER"; Num 119800]) by apply perm_swap.
  split; [exact H|].
  exact (deduplicate_order_only_changes_codes _ _ H).
Defined.

Lemma record_depends_on_own_rows_witness :
  run float_of_decimal_string [klax_earlier_row; kjfk_row; klax_row]
    [klax_tower_row; kjfk_ground_row; klax_blank_row]
  = Wrote [klax_record; kjfk_record] (Ok 34%nat)
  /\ rows_of (a_c klax_record)
       [klax_tower_row; kjfk_ground_row; klax_blank_row]
     = [klax_tower_row; klax_blank_row]
  /\ exists out' report',
       run float_of_decimal_string [klax_earlier_row; kjfk_row; klax_row]
         (rows_of (a_c klax_record)
            [klax_tower_row; kjfk_ground_row; klax_blank_row])
       = Wrote out' report'
       /\ (klax_record ∈ [klax_record; kjfk_record] <-> klax_record ∈ out').
Proof.
  split; [exact two_airports_computed|].
  split; [vm_compute; reflexivity|].
  exact (record_depends_on_own_rows float_of_decimal_string _ _ _ _
           klax_record two_airports_computed).
Defined.

Lemma validator_accepts_two_ranges_witness :
  valid (of_decimal false 1198 1) = true
  /\ ((exists k, validate (of_decimal false 1198 1) = Some k)
      <-> in_band (of_decimal false 1198 1) = true
          \/ in_khz_band (of_decimal false 1198 1) = true).
Proof.
  split; [reflexivity|].
  exact (validator_accepts_two_ranges (of_decimal false 1198 1) eq_refl).
Defined.

Lemma bare_khz_integer_accepted_witness :
  108000 <= 119800 <= 137000
  /\ in_khz_band (of_Z 119800) = true
  /\ validate (of_Z 119800) = Some 119800.
Proof.
  assert (H : 108000 <= 119800 <= 137000) by lia.
  split; [exact H|]. exact (bare_khz_integer_accepted 119800 H).
Defined.

Lemma run_aborts_on_none_type_only_witness :
  Exists (fun r : gmap string (option string) =>
            r !! "type"%string = Some None) [klax_short_row]
  /\ run float_of_decimal_string [klax_row] [klax_short_row]
     = Aborted AttributeError.
Proof.
  assert (H : Exists (fun r : gmap string (option string) =>
                        r !! "type"%string = Some None) [klax_short_row])
    by (left; reflexivity).
  split; [exact H|].
  exact (proj1 (run_aborts_on_none_type_only float_of_decimal_string
                  [klax_row] [klax_short_row]) H).
Defined.

Lemma blank_type_gives_bare_number_witness :
  all_space "  " = true
  /\ compact (observed_entry (119800, "  "%string)) = CNum 119800.
Proof.
  split; [reflexivity|].
  exact (proj2 (proj1 (blank_type_gives_bare_number 119800 "  ")) eq_refl).
Defined.
